(** * dasny_bs4: the scraper's extraction and output logic

    A shallow embedding of [utils.py] and of the run of
    [scrap_contents.py].  Python strings are sequences of Unicode code
    points, Python values are a small universe [PyVal], the parsed
    document is a tree of tags and strings with the queries of the
    document library that the code uses ([find], [find_all],
    [get_text(strip=True)], [get]), and the effects of a run (reads,
    fetches, writes, printed lines) are events appended to a trace.
    What the code takes from Python and its libraries (the Unicode
    tables above ASCII, hashes, the YAML parser, the HTTP client, pickle)
    is a parameter, the record [runtime]. *)

From Stdlib Require Import String Ascii DecimalString.
From Stdlib Require Import List NArith ZArith Lia Bool.
Import ListNotations.

Set Warnings "-register-all".

Local Open Scope N_scope.

(** ** Python strings *)

(** A [str] is its sequence of code points. *)
Definition str := list N.

(** An ASCII literal as a [str]. *)
Definition lit (s : string) : str :=
  map N_of_ascii (list_ascii_of_string s).

(** [a == b] for strings. *)
Fixpoint str_eqb (a b : str) : bool :=
  match a, b with
  | [], [] => true
  | x :: a', y :: b' => (x =? y) && str_eqb a' b'
  | _, _ => false
  end.

(** [s.startswith(p)]. *)
Fixpoint startswith (p s : str) : bool :=
  match p, s with
  | [], _ => true
  | _ :: _, [] => false
  | a :: p', b :: s' => (a =? b) && startswith p' s'
  end.

(** [s.endswith(p)]. *)
Definition endswith (s p : str) : bool :=
  startswith (rev p) (rev s).

(** [p in s] for strings. *)
Fixpoint contains (p s : str) : bool :=
  startswith p s ||
  match s with
  | [] => false
  | _ :: s' => contains p s'
  end.

(** [s.replace(old, new)] for a non-empty [old]: one scan from the left;
    after a hit the scan resumes behind the replaced occurrence ([skip]
    counts the characters of the occurrence still to pass over). *)
Fixpoint replace_from (old new : str) (skip : nat) (s : str) : str :=
  match s with
  | [] => []
  | c :: s' =>
      match skip with
      | S k => replace_from old new k s'
      | O =>
          if startswith old s
          then new ++ replace_from old new (length old - 1) s'
          else c :: replace_from old new 0 s'
      end
  end.

(** [s.replace(old, new)]; for the empty [old] Python puts [new] before
    every character and at the end. *)
Definition replace (old new s : str) : str :=
  match old with
  | [] => flat_map (fun c => new ++ [c]) s ++ new
  | _ :: _ => replace_from old new 0 s
  end.

(** ** Title normalization (utils.py, extract_title_url, line 64) *)

Definition APOSTROPHE : N := 39.
Definition SPACE : N := 32.
Definition UNDERSCORE : N := 95.
Definition HYPHEN : N := 45.
Definition EN_DASH : N := 8211.

(** The literal ["_–_"]. *)
Definition DASHED : str := [UNDERSCORE; EN_DASH; UNDERSCORE].

(** [t.replace("'", "").replace(" ", "_").replace("_–_", "-")]. *)
Definition normalize (t : str) : str :=
  replace DASHED [HYPHEN]
    (replace [SPACE] [UNDERSCORE]
       (replace [APOSTROPHE] [] t)).

(** The rule in the words of the specification, step by step. *)
Definition strip_apostrophes (t : str) : str :=
  filter (fun c => negb (c =? APOSTROPHE)) t.

Definition spaces_to_underscores (t : str) : str :=
  map (fun c => if c =? SPACE then UNDERSCORE else c) t.

(** [Replaced old new s t]: [t] is [s] with the occurrences of [old]
    replaced by [new], found from the left, none overlapping another. *)
Inductive Replaced (old new : str) : str -> str -> Prop :=
| Replaced_nil : Replaced old new [] []
| Replaced_hit s t :
    startswith old s = true ->
    Replaced old new (skipn (length old) s) t ->
    Replaced old new s (new ++ t)
| Replaced_miss c s t :
    startswith old (c :: s) = false ->
    Replaced old new s t ->
    Replaced old new (c :: s) (c :: t).

(** [s.split(sep)] for a separator of one character: the pieces between
    the separators, empty pieces kept, never the empty list. *)
Fixpoint split_on (sep : N) (s : str) : list str :=
  match s with
  | [] => [[]]
  | c :: s' =>
      if c =? sep then [] :: split_on sep s'
      else match split_on sep s' with
           | w :: ws => (c :: w) :: ws
           | [] => [[c]]
           end
  end.

(** [sep.join(parts)]. *)
Fixpoint join (sep : str) (parts : list str) : str :=
  match parts with
  | [] => []
  | [p] => p
  | p :: ps => p ++ sep ++ join sep ps
  end.

Fixpoint dropwhile (p : N -> bool) (s : str) : str :=
  match s with
  | [] => []
  | c :: s' => if p c then dropwhile p s' else s
  end.

(** The decimal numeral of an integer, as an f-string prints it. *)
Definition str_of_Z (z : Z) : str :=
  lit (NilZero.string_of_int (Z.to_int z)).

(** ** Python values, exceptions *)

Inductive PyVal :=
| PNone
| PBool (b : bool)
| PInt (z : Z)
| PStr (s : str)
| PList (items : list PyVal)
| PTuple (items : list PyVal)
| PDict (items : list (PyVal * PyVal)).

(** The exception classes the program can meet; all of them derive from
    [Exception]. *)
Inductive exn :=
| TypeError
| ValueError
| AttributeError
| IndexError
| FileNotFoundError
| HTTPError
| ConnectionError
| YAMLError
| UnicodeDecodeError
| UnpicklingError.

(** A computation returns a value or raises. *)
Inductive result (A : Type) :=
| Ok (a : A)
| Raise (e : exn).
Arguments Ok {A} a.
Arguments Raise {A} e.

Definition rbind {A B} (r : result A) (k : A -> result B) : result B :=
  match r with
  | Ok a => k a
  | Raise e => Raise e
  end.

(** A [for] loop whose body may raise: the state after the last round. *)
Fixpoint rfor {A S} (xs : list A) (body : S -> A -> result S) (s : S)
  : result S :=
  match xs with
  | [] => Ok s
  | x :: xs' => rbind (body s x) (rfor xs' body)
  end.

(** [xs[i]]. *)
Definition index {A} (xs : list A) (i : nat) : result A :=
  match nth_error xs i with
  | Some x => Ok x
  | None => Raise IndexError
  end.

(** [xs[-1]]. *)
Definition index_last {A} (xs : list A) : result A :=
  match rev xs with
  | x :: _ => Ok x
  | [] => Raise IndexError
  end.

(** A string key of a dict. *)
Definition key (s : string) : PyVal := PStr (lit s).

Definition is_key (k : str) (v : PyVal) : bool :=
  match v with
  | PStr s => str_eqb s k
  | _ => false
  end.

(** [d.get(k)] for a string key. *)
Definition dict_get (k : str) (d : PyVal) : option PyVal :=
  match d with
  | PDict items =>
      match find (fun kv => is_key k (fst kv)) items with
      | Some kv => Some (snd kv)
      | None => None
      end
  | _ => None
  end.

(** [d[k] = v] on the items of a dict with string keys: an existing key
    keeps its place and takes the new value, a new key goes last. *)
Fixpoint dict_set (k : str) (v : PyVal) (items : list (PyVal * PyVal))
  : list (PyVal * PyVal) :=
  match items with
  | [] => [(PStr k, v)]
  | (k', v') :: rest =>
      if is_key k k' then (k', v) :: rest
      else (k', v') :: dict_set k v rest
  end.

(** [d.values()]: only a dict has the method. *)
Definition py_values (d : PyVal) : result (list PyVal) :=
  match d with
  | PDict items => Ok (map snd items)
  | _ => Raise AttributeError
  end.

(** [d.items()]. *)
Definition py_items (d : PyVal) : result (list (PyVal * PyVal)) :=
  match d with
  | PDict items => Ok items
  | _ => Raise AttributeError
  end.

(** [prefix + v] for a string [prefix]. *)
Definition str_add (prefix : str) (v : PyVal) : result str :=
  match v with
  | PStr s => Ok (prefix ++ s)
  | _ => Raise TypeError
  end.

(** The items a [for] loop draws from a value. *)
Definition py_iter (v : PyVal) : result (list PyVal) :=
  match v with
  | PList items | PTuple items => Ok items
  | PDict items => Ok (map fst items)
  | PStr s => Ok (map (fun c => PStr [c]) s)
  | PNone | PBool _ | PInt _ => Raise TypeError
  end.

(** Truth value of a value. *)
Definition truthy (v : PyVal) : bool :=
  match v with
  | PNone => false
  | PBool b => b
  | PInt z => negb (Z.eqb z 0)
  | PStr [] | PList [] | PTuple [] | PDict [] => false
  | PStr _ | PList _ | PTuple _ | PDict _ => true
  end.

(** ** The parsed document *)

(** The value of an attribute: a string, or the list of a multi-valued
    attribute such as [class]. *)
Inductive attr :=
| AStr (s : str)
| AList (l : list str).

(** A node of the tree: a string of text, a string that [get_text]
    leaves out (a comment, a declaration), or a tag. *)
Inductive node :=
| NText (s : str)
| NOther (s : str)
| NTag (name : str) (attrs : list (str * attr)) (children : list node).

(** ** The runtime: what the program takes from Python and its libraries *)

Record runtime := {
  (* the Unicode database above ASCII *)
  uni_isspace : N -> bool;
  uni_isdigit : N -> bool;
  uni_isalnum : N -> bool;
  uni_lower : N -> list N;
  (* repr of a string *)
  repr_str : str -> str;
  (* hash *)
  hash_none : Z;
  hash_int : Z -> Z;
  hash_str : str -> Z;
  hash_tuple : list Z -> Z;
  hash_frozenset : list Z -> Z;
  (* tempfile.gettempdir() *)
  tempdir : str;
  (* pickle.dumps, pickle.loads *)
  pickle_dumps : PyVal -> str;
  pickle_loads : str -> result PyVal;
  (* yaml.safe_load on the contents of a file *)
  yaml_safe_load : str -> result PyVal;
  (* requests.get, raise_for_status and the parse of the page *)
  http_get : str -> result node
}.

(** ** Regular expressions: the fragment the program uses *)

Inductive regex :=
| RBoundary                     (* \b *)
| RSet (p : N -> bool)          (* one character of a class *)
| RStar (p : N -> bool)         (* a class repeated, greedy *)
| RSeq (r1 r2 : regex).

Section Scraper.

Variable rt : runtime.

(** *** Character classes *)

(** [str.isspace] on one code point. *)
Definition isspace (c : N) : bool :=
  if c <? 128
  then ((9 <=? c) && (c <=? 13)) || ((28 <=? c) && (c <=? 32))
  else uni_isspace rt c.

(** [\d] of a string pattern: a decimal digit. *)
Definition isdigit (c : N) : bool :=
  if c <? 128 then (48 <=? c) && (c <=? 57) else uni_isdigit rt c.

(** [\w] of a string pattern: alphanumeric or the underscore. *)
Definition isword (c : N) : bool :=
  if c <? 128
  then ((48 <=? c) && (c <=? 57)) || ((65 <=? c) && (c <=? 90))
       || ((97 <=? c) && (c <=? 122)) || (c =? 95)
  else uni_isalnum rt c.

(** [s.lower()], code point by code point.  (The one rule of Python
    that looks at the neighbours, the final sigma, turns one Greek letter
    into another.) *)
Definition lower (s : str) : str :=
  flat_map (fun c =>
              if c <? 128
              then [if (65 <=? c) && (c <=? 90) then c + 32 else c]
              else uni_lower rt c) s.

(** [s.strip()]. *)
Definition lstrip (s : str) : str := dropwhile isspace s.
Definition rstrip (s : str) : str := rev (dropwhile isspace (rev s)).
Definition strip (s : str) : str := rstrip (lstrip s).

(** *** Matching *)

(** [\b] between the character before the position ([prev], none at the
    start of the string) and the rest of the string. *)
Definition boundary (prev : option N) (s : str) : bool :=
  xorb (match prev with Some c => isword c | None => false end)
       (match s with c :: _ => isword c | [] => false end).

(** The greedy star of a class, with backtracking: as many characters as
    possible, giving one back at a time while the rest of the pattern
    ([k]) fails. *)
Fixpoint star (p : N -> bool) (prev : option N) (s : str)
         (k : option N -> str -> option str) : option str :=
  match s with
  | c :: s' =>
      if p c
      then match star p (Some c) s' k with
           | Some r => Some r
           | None => k prev s
           end
      else k prev s
  | [] => k prev s
  end.

(** [rmatch r prev s k]: match [r] at the head of [s], then the rest of
    the pattern [k]; the result is the input left after the whole match. *)
Fixpoint rmatch (r : regex) (prev : option N) (s : str)
         (k : option N -> str -> option str) : option str :=
  match r with
  | RBoundary => if boundary prev s then k prev s else None
  | RSet p =>
      match s with
      | c :: s' => if p c then k (Some c) s' else None
      | [] => None
      end
  | RStar p => star p prev s k
  | RSeq r1 r2 => rmatch r1 prev s (fun prev' s' => rmatch r2 prev' s' k)
  end.

(** The length of the match of [r] at the head of [s], if there is one. *)
Definition match_here (r : regex) (prev : option N) (s : str) : option nat :=
  match rmatch r prev s (fun _ rest => Some rest) with
  | Some rest => Some (length s - length rest)%nat
  | None => None
  end.

(** [re.findall]: the matches from left to right, none overlapping
    another; [skip] counts the characters of the last match still to pass
    over.  An empty match is recorded and the scan moves on by one
    character (the pattern of this program matches no empty string). *)
Fixpoint findall_from (r : regex) (prev : option N) (skip : nat) (s : str)
  : list str :=
  match s with
  | [] =>
      match skip, match_here r prev [] with
      | O, Some _ => [[]]
      | _, _ => []
      end
  | c :: s' =>
      match skip with
      | S k => findall_from r (Some c) k s'
      | O =>
          match match_here r prev s with
          | Some n => firstn n s :: findall_from r (Some c) (n - 1) s'
          | None => findall_from r (Some c) 0 s'
          end
      end
  end.

Definition findall (r : regex) (s : str) : list str :=
  findall_from r None 0 s.

Definition digit_or_comma (c : N) : bool := isdigit c || (c =? 44).

(** The pattern of extract_data, line 84: [\b\d[\d,]*\b]. *)
Definition NUMBER_RE : regex :=
  RSeq RBoundary (RSeq (RSet isdigit) (RSeq (RStar digit_or_comma) RBoundary)).

(** The pattern the specification names: [\d[\d,]*]. *)
Definition SPEC_NUMBER_RE : regex :=
  RSeq (RSet isdigit) (RStar digit_or_comma).

(** *** Queries on the document *)

Definition lookup {A} (k : str) (l : list (str * A)) : option A :=
  match find (fun kv => str_eqb (fst kv) k) l with
  | Some kv => Some (snd kv)
  | None => None
  end.

(** The elements below a node, in document order. *)
Fixpoint descendants (n : node) : list node :=
  match n with
  | NTag _ _ children => flat_map (fun c => c :: descendants c) children
  | _ => []
  end.

(** [tag.get(name)]. *)
Definition tag_get (n : node) (name : str) : option attr :=
  match n with
  | NTag _ attrs _ => lookup name attrs
  | _ => None
  end.

(** An attribute value against a wanted string: equal to it, or, for a
    multi-valued attribute, one of the values or their joined text. *)
Definition attr_matches (want : str) (a : attr) : bool :=
  match a with
  | AStr s => str_eqb s want
  | AList l => existsb (str_eqb want) l || str_eqb (join [32] l) want
  end.

Definition tag_matches (name : str) (want : list (str * str)) (n : node)
  : bool :=
  match n with
  | NTag nm attrs _ =>
      str_eqb nm name
      && forallb (fun w =>
                    match lookup (fst w) attrs with
                    | Some a => attr_matches (snd w) a
                    | None => false
                    end) want
  | _ => false
  end.

(** [tag.find_all(name, **want)] and [tag.find(name, **want)]. *)
Definition tag_find_all (n : node) (name : str) (want : list (str * str))
  : list node :=
  filter (tag_matches name want) (descendants n).

Definition tag_find (n : node) (name : str) (want : list (str * str))
  : option node :=
  hd_error (tag_find_all n name want).

(** The strings [get_text] reads below a node, in document order. *)
Fixpoint text_strings (n : node) : list str :=
  match n with
  | NText s => [s]
  | NOther _ => []
  | NTag _ _ children => flat_map text_strings children
  end.

(** [tag.get_text(strip=True)]: every string stripped, the empty ones
    dropped, the rest joined with nothing between them. *)
Definition get_text (n : node) : str :=
  concat (filter (fun s => negb (str_eqb s [])) (map strip (text_strings n))).

(** A name bound to a tag or to [None]: a tag is true, [None] is not, and
    a method call on [None] raises. *)
Definition bound {A} (o : option A) : bool :=
  match o with
  | Some _ => true
  | None => false
  end.

Definition call {A B} (o : option A) (method : A -> B) : result B :=
  match o with
  | Some a => Ok (method a)
  | None => Raise AttributeError
  end.

Notation "x <- e ;; k" := (rbind e (fun x => k))
  (at level 61, e at next level, right associativity).

(** *** extract_title_url (utils.py, lines 56-69) *)

Definition py_of_attr (o : option attr) : PyVal :=
  match o with
  | Some (AStr s) => PStr s
  | Some (AList l) => PList (map PStr l)
  | None => PNone
  end.

Definition extract_title_url (soup : node) : result PyVal :=
  let title_divs := tag_find_all soup (lit "div") [(lit "class", lit "rfp-bid-title")] in
  title_url_mapping <-
    rfor title_divs
      (fun title_url_mapping title_div =>
         let a_tag := tag_find title_div (lit "a") [] in
         if bound a_tag then
           text <- call a_tag get_text ;;
           let title := normalize text in
           url <- call a_tag (fun a => py_of_attr (tag_get a (lit "href"))) ;;
           if truthy (PStr title) && truthy url
           then Ok (dict_set title url title_url_mapping)
           else Ok title_url_mapping
         else Ok title_url_mapping)
      [] ;;
  Ok (PDict title_url_mapping).

(** *** extract_data (utils.py, lines 72-116) *)

(** Lines 82-85: the loop over the sentences of the notice. *)
Definition estimated_loop (sentences : list str) : result (list PyVal) :=
  rfor sentences
    (fun estimated_numbers sentence =>
       if contains (lit "estimated") (lower sentence)
       then
         let numbers := findall NUMBER_RE sentence in
         Ok (estimated_numbers
               ++ [PTuple [PStr (strip sentence); PList (map PStr numbers)]])
       else Ok estimated_numbers)
    [].

(** Lines 92-97 and 104-109: the loop over the rows of a table; the two
    loops differ in the names of the two fields only. *)
Definition rows_loop (name amount : string) (rows : list node)
  : result (list PyVal) :=
  rfor rows
    (fun acc row =>
       let cols := tag_find_all row (lit "td") [] in
       if (3 <=? length cols)%nat
       then
         c1 <- index cols 1 ;;
         c2 <- index cols 2 ;;
         Ok (acc ++ [PDict [(key name, PStr (get_text c1));
                            (key amount, PStr (get_text c2))]])
       else Ok acc)
    [].

Definition extract_data (soup : node) : result PyVal :=
  let title_tag := tag_find soup (lit "h1") [(lit "class", lit "page-header")] in
  title <- (if bound title_tag then call title_tag get_text
            else Ok (lit "Title not found")) ;;
  let notice_section := tag_find soup (lit "div") [(lit "id", lit "rfp-ad-notice")] in
  estimated_numbers <-
    (if bound notice_section then
       text <- call notice_section get_text ;;
       estimated_loop (split_on 46 text)
     else Ok []) ;;
  let bid_table := tag_find soup (lit "table") [(lit "id", lit "bidresultlist")] in
  bid_results <-
    (if bound bid_table then
       trs <- call bid_table (fun t => tag_find_all t (lit "tr") []) ;;
       rows_loop "company" "bid_amount" (tl trs)
     else Ok []) ;;
  let awards_table := tag_find soup (lit "table") [(lit "id", lit "awardlist")] in
  awards <-
    (if bound awards_table then
       trs <- call awards_table (fun t => tag_find_all t (lit "tr") []) ;;
       rows_loop "firm_name" "award_amt" (tl trs)
     else Ok []) ;;
  Ok (PDict [(key "title", PStr title);
             (key "estimated_numbers", PList estimated_numbers);
             (key "bid_results", PList bid_results);
             (key "awards", PList awards)]).

(** *** str() and hash() *)

(** [repr(v)]. *)
Fixpoint py_repr (v : PyVal) : str :=
  match v with
  | PNone => lit "None"
  | PBool b => lit (if b then "True" else "False")
  | PInt z => str_of_Z z
  | PStr s => repr_str rt s
  | PList items => lit "[" ++ join (lit ", ") (map py_repr items) ++ lit "]"
  | PTuple items =>
      match items with
      | [x] => lit "(" ++ py_repr x ++ lit ",)"
      | _ => lit "(" ++ join (lit ", ") (map py_repr items) ++ lit ")"
      end
  | PDict items =>
      lit "{"
      ++ join (lit ", ")
           (map (fun kv => match kv with
                           | (k, x) => py_repr k ++ lit ": " ++ py_repr x
                           end) items)
      ++ lit "}"
  end.

(** [str(v)]: a string is itself, any other value is its [repr]. *)
Definition py_str (v : PyVal) : str :=
  match v with
  | PStr s => s
  | _ => py_repr v
  end.

(** [hash(v)]: a list and a dict are unhashable, and so is a tuple that
    holds an unhashable item (the items are hashed from the left). *)
Fixpoint py_hash (v : PyVal) : result Z :=
  match v with
  | PNone => Ok (hash_none rt)
  | PBool b => Ok (if b then 1%Z else 0%Z)
  | PInt z => Ok (hash_int rt z)
  | PStr s => Ok (hash_str rt s)
  | PTuple items =>
      hs <- (fix hashes (l : list PyVal) : result (list Z) :=
               match l with
               | [] => Ok []
               | x :: l' =>
                   h <- py_hash x ;;
                   hs <- hashes l' ;;
                   Ok (h :: hs)
               end) items ;;
      Ok (hash_tuple rt hs)
  | PList _ => Raise TypeError
  | PDict _ => Raise TypeError
  end.

(** [hash(frozenset(kwargs.items()))]: building the set hashes every
    (name, value) pair. *)
Definition hash_kwargs (kwargs : list (str * PyVal)) : result Z :=
  hs <- rfor kwargs
          (fun hs kv =>
             h <- py_hash (PTuple [PStr (fst kv); snd kv]) ;;
             Ok (hs ++ [h]))
          [] ;;
  Ok (hash_frozenset rt hs).

(** ** The world of a run *)

Inductive event :=
| EvPrint (msg : str)                      (* print of a fixed line *)
| EvPrintErr (msg : str) (e : exn)         (* print of a line ending in an exception *)
| EvGet (url : str)                        (* requests.get *)
| EvPickleLoad (path : str)
| EvPickleDump (path : str)
| EvRemove (path : str)
| EvToCsv (path : str) (df : PyVal)        (* df.to_csv(path, index=False) *)
| EvJsonDump (path : str) (data : PyVal) (ensure_ascii : bool) (indent : nat).

(** The files that exist, with their contents, and what the run has done
    so far, oldest first. *)
Record world := {
  files : str -> option str;
  trace : list event
}.

Definition M (A : Type) : Type := world -> result A * world.

Definition ret {A} (a : A) : M A := fun w => (Ok a, w).

Definition raise {A} (e : exn) : M A := fun w => (Raise e, w).

Definition bind {A B} (m : M A) (k : A -> M B) : M B :=
  fun w =>
    match m w with
    | (Ok a, w') => k a w'
    | (Raise e, w') => (Raise e, w')
    end.

Definition lift {A} (r : result A) : M A := fun w => (r, w).

Definition emit (e : event) : M unit :=
  fun w => (Ok tt, {| files := files w; trace := trace w ++ [e] |}).

Notation "x <~ e ;; k" := (bind e (fun x => k))
  (at level 61, e at next level, right associativity).
Notation "e ;;; k" := (bind e (fun _ => k))
  (at level 61, right associativity).

Fixpoint mfor {A S} (xs : list A) (body : S -> A -> M S) (s : S) : M S :=
  match xs with
  | [] => ret s
  | x :: xs' => s' <~ body s x ;; mfor xs' body s'
  end.

(** [try: body except Exception as e: handler(e)]: every class of [exn]
    derives from [Exception]. *)
Definition try_except {A} (body : M A) (handler : exn -> M A) : M A :=
  fun w =>
    match body w with
    | (Ok a, w') => (Ok a, w')
    | (Raise e, w') => handler e w'
    end.

(** [open(path, 'r').read()]. *)
Definition read_file (path : str) : M str :=
  fun w =>
    match files w path with
    | Some content => (Ok content, w)
    | None => (Raise FileNotFoundError, w)
    end.

Definition path_exists (path : str) : M bool :=
  fun w => (Ok (bound (files w path)), w).

Definition write_file (path content : str) : M unit :=
  fun w =>
    (Ok tt,
     {| files := fun p => if str_eqb p path then Some content else files w p;
        trace := trace w |}).

(** [os.remove(path)]. *)
Definition remove_file (path : str) : M unit :=
  fun w =>
    match files w path with
    | Some _ =>
        (Ok tt,
         {| files := fun p => if str_eqb p path then None else files w p;
            trace := trace w ++ [EvRemove path] |})
    | None => (Raise FileNotFoundError, w)
    end.

(** [os.path.join(a, b)]. *)
Definition path_join (a b : str) : str :=
  if startswith [47] b then b
  else if str_eqb a [] || endswith a [47] then a ++ b
  else a ++ [47] ++ b.

(** ** utils.py: the decorator, the aggregation step, the loader, the writers *)

(** A function called with positional and keyword arguments. *)
Definition pyfun : Type := list PyVal -> list (str * PyVal) -> M PyVal.

(** temp_pickle (lines 17-44): the wrapper around [func], a function of
    the name [name]. *)
Definition temp_pickle (name : str) (func : pyfun) : pyfun :=
  fun args kwargs =>
    let temp_dir := tempdir rt in
    h_args <~ lift (py_hash (PTuple args)) ;;
    h_kwargs <~ lift (hash_kwargs kwargs) ;;
    let file_name :=
      name ++ lit "_" ++ str_of_Z h_args ++ lit "_" ++ str_of_Z h_kwargs
      ++ lit ".pkl" in
    let file_path := path_join temp_dir file_name in
    cached <~ path_exists file_path ;;
    if cached then
      content <~ read_file file_path ;;
      emit (EvPickleLoad file_path) ;;;
      lift (pickle_loads rt content)
    else
      result <~ func args kwargs ;;
      write_file file_path (pickle_dumps rt result) ;;;
      emit (EvPickleDump file_path) ;;;
      remove_file file_path ;;;
      ret result.

(** get_full_html (lines 47-53). *)
Definition get_full_html (url : str) : M node :=
  emit (EvGet url) ;;;
  lift (http_get rt url).

(** The parameters [data_list] and [iscsv=False] taken from a call. *)
Definition bind_parameters (args : list PyVal) (kwargs : list (str * PyVal))
  : result (PyVal * PyVal) :=
  let known kv :=
    str_eqb (fst kv) (lit "data_list") || str_eqb (fst kv) (lit "iscsv") in
  let iscsv_kw :=
    match lookup (lit "iscsv") kwargs with
    | Some b => b
    | None => PBool false
    end in
  if negb (forallb known kwargs) then Raise TypeError
  else
    match args with
    | [] =>
        match lookup (lit "data_list") kwargs with
        | Some d => Ok (d, iscsv_kw)
        | None => Raise TypeError
        end
    | [d] =>
        if bound (lookup (lit "data_list") kwargs) then Raise TypeError
        else Ok (d, iscsv_kw)
    | [d; b] =>
        match kwargs with
        | [] => Ok (d, b)
        | _ :: _ => Raise TypeError
        end
    | _ => Raise TypeError
    end.

(** The body of extract_multiple_to_df (lines 120-140), undecorated. *)
Definition extract_multiple_to_df_body : pyfun :=
  fun args kwargs =>
    lift (
      p <- bind_parameters args kwargs ;;
      let data_list := fst p in
      let iscsv := snd p in
      records <- py_iter data_list ;;
      processed_data <-
        rfor records
          (fun processed_data data =>
             items <- py_items data ;;
             let row :=
               if truthy iscsv
               then map (fun kv => (fst kv, PStr (py_str (snd kv)))) items
               else map (fun kv => (fst kv, snd kv)) items in
             Ok (processed_data ++ [PDict row]))
          [] ;;
      Ok (PList processed_data)).

(** extract_multiple_to_df as the module defines it (line 119): the body
    under the decorator. *)
Definition extract_multiple_to_df : pyfun :=
  temp_pickle (lit "extract_multiple_to_df") extract_multiple_to_df_body.

(** load_yaml_to_dict (lines 167-183). *)
Definition load_yaml_to_dict (file_path : str) : M PyVal :=
  try_except
    (content <~ read_file file_path ;;
     data <~ lift (yaml_safe_load rt content) ;;
     ret data)
    (fun e =>
       emit (EvPrintErr (lit "Error reading YAML file: ") e) ;;;
       ret PNone).

(** A data frame built from a list of records is that list of records:
    [pd.DataFrame(rows).to_dict(orient='records')] gives the rows back. *)
Definition DataFrame (rows : PyVal) : PyVal := rows.
Definition to_dict_records (df : PyVal) : PyVal := df.

(** [df.to_csv(path, index=False)].  The call of a writer is recorded
    with what it is given; what the file system does with the file is
    outside the model. *)
Definition to_csv (df : PyVal) (path : str) : M unit :=
  emit (EvToCsv path df).

(** save2json (lines 186-191). *)
Definition save2json (path : str) (df : PyVal) : M unit :=
  let data_dict := to_dict_records df in
  emit (EvJsonDump path data_dict false 4).

(** ** scrap_contents.py: main (lines 14-45) *)

Definition SITE : str := lit "https://www.dasny.org/".

(** [not output] for an optional string. *)
Definition not_output (output : option str) : bool :=
  match output with
  | None => true
  | Some s => negb (truthy (PStr s))
  end.

(** Lines 22-25: one round of the loop over the links. *)
Definition fetch_record (data : list PyVal) (url : PyVal) : M (list PyVal) :=
  address <~ lift (str_add SITE url) ;;
  soup <~ get_full_html address ;;
  extracted <~ lift (extract_data soup) ;;
  ret (data ++ [extracted]).

(** The run, over the aggregation step it calls (line 30).  The chain of
    lines 32-45 tests [not output] first, so the method [endswith] is
    only ever called on a string. *)
Definition main_with (aggregate : pyfun) (yaml : str) (output : option str)
  : M unit :=
  urls <~ load_yaml_to_dict yaml ;;
  values <~ lift (py_values urls) ;;
  data <~ mfor values fetch_record [] ;;
  iscsv <~ (if not_output output then ret true
            else lift (call output (fun path => endswith path (lit ".csv")))) ;;
  rows <~ aggregate [PList data; PBool iscsv] [] ;;
  let df := DataFrame rows in
  if not_output output then
    last <~ lift (index_last (split_on 47 yaml)) ;;
    stem <~ lift (index (split_on 46 last) 0) ;;
    to_csv df (lit "output/csv/" ++ stem ++ lit ".csv") ;;;
    emit (EvPrint (lit "Data processing complete. File saved as combined_data.csv"))
  else
    match output with
    | None => raise AttributeError
    | Some path =>
        if endswith path (lit ".json") then
          save2json path df ;;;
          emit (EvPrint (lit "Data saved to " ++ path ++ lit " in JSON format."))
        else if endswith path (lit ".csv") then
          to_csv df path ;;;
          emit (EvPrint (lit "Data saved to " ++ path ++ lit " in CSV format."))
        else raise ValueError
    end.

(** main as the script runs it. *)
Definition main (yaml : str) (output : option str) : M unit :=
  main_with extract_multiple_to_df yaml output.

(** The output writers among the events. *)
Definition is_write (e : event) : bool :=
  match e with
  | EvToCsv _ _ | EvJsonDump _ _ _ _ => true
  | _ => false
  end.

(** ** The estimate extractor, declaratively *)

Definition mentions_estimated (sentence : str) : bool :=
  contains (lit "estimated") (lower sentence).

(** One mention: the trimmed sentence with its numbers. *)
Definition mention (numbers : str -> list str) (sentence : str) : PyVal :=
  PTuple [PStr (strip sentence); PList (map PStr (numbers sentence))].

(** The extractor in the words of the specification: the numbers of a
    sentence are the matches of [\d[\d,]*]. *)
Definition spec_estimates (text : str) : list PyVal :=
  map (mention (findall SPEC_NUMBER_RE))
      (filter mentions_estimated (split_on 46 text)).

(** The extractor as the code has it: the numbers of a sentence are the
    matches of [\b\d[\d,]*\b]. *)
Definition estimates (text : str) : list PyVal :=
  map (mention (findall NUMBER_RE))
      (filter mentions_estimated (split_on 46 text)).

(** The character before the rest of the string once [body] has been
    read, [prev] being the character before [body]. *)
Definition char_before (prev : option N) (body : str) : option N :=
  fold_left (fun _ c => Some c) body prev.

(** [d :: body] can end a number in front of [rest]: [body] holds digits
    and commas only and a word boundary follows it. *)
Definition ends_number (d : N) (body rest : str) : Prop :=
  forallb digit_or_comma body = true
  /\ boundary (char_before (Some d) body) rest = true.

(** [tok] is the number at the head of [s] ([prev] before it, [rest]
    after it): it starts at a word boundary with a digit, goes on with
    digits and commas, ends at a word boundary, and is the longest such. *)
Definition number_at (prev : option N) (s tok rest : str) : Prop :=
  exists d body,
    tok = d :: body /\ s = tok ++ rest
    /\ boundary prev s = true /\ isdigit d = true
    /\ ends_number d body rest
    /\ forall body' rest',
         s = d :: body' ++ rest' -> ends_number d body' rest' ->
         (length body' <= length body)%nat.

(** [Numbers prev s toks]: [toks] are the numbers of [s] from the left,
    none overlapping another. *)
Inductive Numbers : option N -> str -> list str -> Prop :=
| Numbers_nil prev : Numbers prev [] []
| Numbers_hit prev s tok rest toks :
    number_at prev s tok rest ->
    Numbers (char_before prev tok) rest toks ->
    Numbers prev s (tok :: toks)
| Numbers_miss prev c s toks :
    (forall tok rest, ~ number_at prev (c :: s) tok rest) ->
    Numbers (Some c) s toks ->
    Numbers prev (c :: s) toks.

(** The end of [NUMBER_RE], which the star runs into: the closing [\b]. *)
Definition closing (prev : option N) (s : str) : option str :=
  if boundary prev s then Some s else None.

(** ** The rows of a table, declaratively *)

(** The cells of a row, and the row the extractor makes of them. *)
Definition cells (row : node) : list node := tag_find_all row (lit "td") [].

Definition cell_text (row : node) (i : nat) : str :=
  get_text (nth i (cells row) (NText [])).

Definition table_row (name amount : string) (row : node) : PyVal :=
  PDict [(key name, PStr (cell_text row 1));
         (key amount, PStr (cell_text row 2))].

Definition table_rows (name amount : string) (table : node) : list PyVal :=
  map (table_row name amount)
      (filter (fun row => (3 <=? length (cells row))%nat)
              (tl (tag_find_all table (lit "tr") []))).

(** ** The record of a page, field by field *)

Definition page_title (soup : node) : str :=
  match tag_find soup (lit "h1") [(lit "class", lit "page-header")] with
  | Some title_tag => get_text title_tag
  | None => lit "Title not found"
  end.

Definition page_estimates (soup : node) : list PyVal :=
  match tag_find soup (lit "div") [(lit "id", lit "rfp-ad-notice")] with
  | Some notice_section => estimates (get_text notice_section)
  | None => []
  end.

Definition page_rows (id name amount : string) (soup : node) : list PyVal :=
  match tag_find soup (lit "table") [(lit "id", lit id)] with
  | Some table => table_rows name amount table
  | None => []
  end.

Definition opportunity_record (soup : node) : PyVal :=
  PDict
    [(key "title", PStr (page_title soup));
     (key "estimated_numbers", PList (page_estimates soup));
     (key "bid_results",
      PList (page_rows "bidresultlist" "company" "bid_amount" soup));
     (key "awards",
      PList (page_rows "awardlist" "firm_name" "award_amt" soup))].

(** ** The run, step by step *)

(** The world after some more events. *)
Definition after (w : world) (events : list event) : world :=
  {| files := files w; trace := trace w ++ events |}.



(** A record with every value replaced by its [str]. *)
Definition stringified (record : PyVal) : PyVal :=
  match record with
  | PDict items => PDict (map (fun kv => (fst kv, PStr (py_str (snd kv)))) items)
  | _ => record
  end.

Definition is_dict (v : PyVal) : bool :=
  match v with
  | PDict _ => true
  | _ => false
  end.

(** A string with no white space at either end. *)
Definition edge (s : str) : bool :=
  match s with
  | [] => true
  | c :: _ => negb (isspace c)
  end.

Definition trimmed (s : str) : Prop :=
  edge s = true /\ edge (rev s) = true.

(** ** The harvest of the links, declaratively *)

(** The entry a title block gives, if it gives one: the block needs a
    link with a text that normalizes to a non-empty title and with a
    non-empty href. *)
Definition title_entry (title_div : node) : option (str * PyVal) :=
  match tag_find title_div (lit "a") [] with
  | Some a_tag =>
      let title := normalize (get_text a_tag) in
      let url := py_of_attr (tag_get a_tag (lit "href")) in
      if truthy (PStr title) && truthy url then Some (title, url) else None
  | None => None
  end.

(** The entries of a listing page, in the order of its title blocks. *)
Definition title_entries (soup : node) : list (str * PyVal) :=
  flat_map (fun title_div =>
              match title_entry title_div with
              | Some entry => [entry]
              | None => []
              end)
           (tag_find_all soup (lit "div") [(lit "class", lit "rfp-bid-title")]).

(** The entries put into a dict one after the other. *)
Definition set_all (entries : list (str * PyVal))
           (items : list (PyVal * PyVal)) : list (PyVal * PyVal) :=
  fold_left (fun items entry => dict_set (fst entry) (snd entry) items)
            entries items.

(** The value the last entry with the title [k] has. *)
Definition last_url (k : str) (entries : list (str * PyVal)) : option PyVal :=
  match find (fun entry => str_eqb (fst entry) k) (rev entries) with
  | Some entry => Some (snd entry)
  | None => None
  end.

(** ** The record of a page: its shape *)

(** No white space at either end, as a test. *)
Definition clean (s : str) : bool := edge s && edge (rev s).

Definition no_period (s : str) : bool := forallb (fun c => negb (c =? 46)) s.

(** A digit, then digits and commas. *)
Definition is_number (s : str) : bool :=
  match s with
  | d :: body => isdigit d && forallb digit_or_comma body
  | [] => false
  end.

Definition is_number_value (v : PyVal) : bool :=
  match v with
  | PStr s => is_number s
  | _ => false
  end.

(** A pair of a clean sentence without a period and a list of numbers. *)
Definition mention_ok (v : PyVal) : bool :=
  match v with
  | PTuple [PStr sentence; PList numbers] =>
      clean sentence && no_period sentence && forallb is_number_value numbers
  | _ => false
  end.

(** A dict of the two fields [name] and [amount], both clean strings. *)
Definition row_ok (name amount : string) (v : PyVal) : bool :=
  match v with
  | PDict [(PStr k1, PStr a); (PStr k2, PStr b)] =>
      str_eqb k1 (lit name) && str_eqb k2 (lit amount) && clean a && clean b
  | _ => false
  end.

(** A dict of the four fields, in their order, each of its shape. *)
Definition record_ok (v : PyVal) : bool :=
  match v with
  | PDict [(PStr k1, PStr title); (PStr k2, PList estimated_numbers);
           (PStr k3, PList bid_results); (PStr k4, PList awards)] =>
      str_eqb k1 (lit "title")
      && str_eqb k2 (lit "estimated_numbers")
      && str_eqb k3 (lit "bid_results")
      && str_eqb k4 (lit "awards")
      && clean title
      && forallb mention_ok estimated_numbers
      && forallb (row_ok "company" "bid_amount") bid_results
      && forallb (row_ok "firm_name" "award_amt") awards
  | _ => false
  end.

(** ** The cache file of the decorator *)

(** The path the wrapper builds from the name of the function and the
    two hashes (lines 25-27). *)
Definition cache_path (name : str) (h_args h_kwargs : Z) : str :=
  path_join (tempdir rt)
    (name ++ lit "_" ++ str_of_Z h_args ++ lit "_" ++ str_of_Z h_kwargs
     ++ lit ".pkl").

(** ** scrap_urls.py: main, lines 15-19 *)

Definition URL : str := lit "https://www.dasny.org/index.php/opportunities/".

(** Two hashable values are equal as keys of a dict: [True] is [1] and
    [False] is [0], tuples are equal item by item. *)
Fixpoint key_eq (a b : PyVal) {struct a} : bool :=
  match a, b with
  | PNone, PNone => true
  | PStr x, PStr y => str_eqb x y
  | PBool x, PBool y => Bool.eqb x y
  | PInt x, PInt y => Z.eqb x y
  | PBool x, PInt y => Z.eqb (if x then 1 else 0) y
  | PInt x, PBool y => Z.eqb x (if y then 1 else 0)
  | PTuple xs, PTuple ys =>
      (fix all2 (xs ys : list PyVal) {struct xs} : bool :=
         match xs, ys with
         | [], [] => true
         | x :: xs', y :: ys' => key_eq x y && all2 xs' ys'
         | _, _ => false
         end) xs ys
  | _, _ => false
  end.

Fixpoint set_key (k v : PyVal) (items : list (PyVal * PyVal))
  : list (PyVal * PyVal) :=
  match items with
  | [] => [(k, v)]
  | (k', v') :: rest =>
      if key_eq k' k then (k', v) :: rest
      else (k', v') :: set_key k v rest
  end.

(** [d[k] = v] for any key: the key must be hashable. *)
Definition py_setitem (items : list (PyVal * PyVal)) (k v : PyVal)
  : result (list (PyVal * PyVal)) :=
  _ <- py_hash k ;;
  Ok (set_key k v items).

(** [d.update(other)]: the items of a dict, or else the pairs that
    [other] yields, are set one after the other. *)
Definition py_update (items : list (PyVal * PyVal)) (other : PyVal)
  : result (list (PyVal * PyVal)) :=
  match other with
  | PDict new_items =>
      rfor new_items (fun items kv => py_setitem items (fst kv) (snd kv)) items
  | _ =>
      pairs <- py_iter other ;;
      rfor pairs
        (fun items pair =>
           kv <- py_iter pair ;;
           match kv with
           | [k; v] => py_setitem items k v
           | _ => Raise ValueError
           end)
        items
  end.

(** Line 15: the addresses of the listing pages, page 0 first. *)
Definition listing_urls (target : str) (pages : Z) : list str :=
  map (fun page =>
         URL ++ target ++ lit "?page=" ++ str_of_Z (Z.of_nat page))
      (seq 0 (Z.to_nat pages)).

(** Line 19: one round of the loop over the listing pages. *)
Definition harvest_page (url_dict : list (PyVal * PyVal)) (url : str)
  : M (list (PyVal * PyVal)) :=
  soup <~ get_full_html url ;;
  found <~ lift (extract_title_url soup) ;;
  lift (py_update url_dict found).

(** Lines 15-19: the mapping that main hands to save_dict_to_yaml. *)
Definition harvest (target : str) (pages : Z) : M PyVal :=
  url_dict <~ mfor (listing_urls target pages) harvest_page [] ;;
  ret (PDict url_dict).

(** ** Values that cannot be hashed *)

(** The value is a list or a dict, or a tuple that holds such an item. *)
Fixpoint holds_unhashable (v : PyVal) : bool :=
  match v with
  | PList _ | PDict _ => true
  | PTuple items => existsb holds_unhashable items
  | PNone | PBool _ | PInt _ | PStr _ => false
  end.

(** ** Normalized titles *)

(** No apostrophe, no space and no ["_–_"]. *)
Definition is_normalized (t : str) : bool :=
  forallb (fun c => negb (c =? APOSTROPHE) && negb (c =? SPACE)) t
  && negb (contains DASHED t).

End Scraper.

(** ** A runtime and a page for the examples *)

(** A configuration of one link, as the file holds it and as the parser
    reads it. *)
Definition sample_yaml : str := lit "Roof_Repair: opportunities/roof-repair".

Definition sample_urls : PyVal :=
  PDict [(key "Roof_Repair", PStr (lit "opportunities/roof-repair"))].

Definition td (text : string) : node := NTag (lit "td") [] [NText (lit text)].

Definition tr (cells : list node) : node := NTag (lit "tr") [] cells.

(** A table of bids: a header row, then two rows of bids around a row
    of one cell. *)
Definition sample_table : node :=
  NTag (lit "table") [(lit "id", AStr (lit "bidresultlist"))]
    [tr [NTag (lit "th") [] [NText (lit "No")];
         NTag (lit "th") [] [NText (lit "Company")];
         NTag (lit "th") [] [NText (lit "Bid Amount")]];
     tr [td "1"; td " Acme Roofing "; td "$1,200,000"];
     tr [td "note"];
     tr [td "2"; td "Best Build"; td "$1,300,000"; td "late"]].

(** A page with a heading, a notice and the table of bids; it has no
    table of awards. *)
Definition sample_page : node :=
  NTag (lit "[document]") []
    [NTag (lit "h1") [(lit "class", AList [lit "page-header"])]
       [NText (lit " Roof Repair ")];
     NTag (lit "div") [(lit "id", AStr (lit "rfp-ad-notice"))]
       [NText (lit "Total estimated cost is 1,250,000 dollars. Other info here.")];
     sample_table].

(** Nothing above ASCII is a space, a digit or a letter; [repr] puts a
    string between apostrophes; the hashes are constants; the one file
    that parses is [sample_yaml], the one page that loads is
    [sample_page]. *)
Definition sample_runtime : runtime := {|
  uni_isspace := fun _ => false;
  uni_isdigit := fun _ => false;
  uni_isalnum := fun _ => false;
  uni_lower := fun c => [c];
  repr_str := fun s => [39] ++ s ++ [39];
  hash_none := 0%Z;
  hash_int := fun z => z;
  hash_str := fun _ => 0%Z;
  hash_tuple := fun _ => 0%Z;
  hash_frozenset := fun _ => 0%Z;
  tempdir := lit "/tmp";
  pickle_dumps := fun _ => [];
  pickle_loads := fun _ => Raise UnpicklingError;
  yaml_safe_load := fun content =>
    if str_eqb content sample_yaml then Ok sample_urls else Raise YAMLError;
  http_get := fun url =>
    if str_eqb url (SITE ++ lit "opportunities/roof-repair")
    then Ok sample_page else Raise HTTPError
|}.

(** The files of the examples: the configuration and nothing else. *)
Definition sample_world : world := {|
  files := fun path =>
    if str_eqb path (lit "urls/bid-results-and-awards.yaml")
    then Some sample_yaml else None;
  trace := []
|}.

(** ** More examples *)

(** The sample runtime with a parser that reads [urls] from any file. *)
Definition runtime_with_config (urls : PyVal) : runtime := {|
  uni_isspace := uni_isspace sample_runtime;
  uni_isdigit := uni_isdigit sample_runtime;
  uni_isalnum := uni_isalnum sample_runtime;
  uni_lower := uni_lower sample_runtime;
  repr_str := repr_str sample_runtime;
  hash_none := hash_none sample_runtime;
  hash_int := hash_int sample_runtime;
  hash_str := hash_str sample_runtime;
  hash_tuple := hash_tuple sample_runtime;
  hash_frozenset := hash_frozenset sample_runtime;
  tempdir := tempdir sample_runtime;
  pickle_dumps := pickle_dumps sample_runtime;
  pickle_loads := pickle_loads sample_runtime;
  yaml_safe_load := fun _ => Ok urls;
  http_get := http_get sample_runtime
|}.

(** A title block with a link. *)
Definition title_block (href text : string) : node :=
  NTag (lit "div") [(lit "class", AList [lit "rfp-bid-title"])]
    [NTag (lit "a") [(lit "href", AStr (lit href))] [NText (lit text)]].

(** Title blocks that give no entry: one without a link, one whose link
    has no text, one whose link has no address. *)
Definition bare_listing : node :=
  NTag (lit "[document]") []
    [NTag (lit "div") [(lit "class", AList [lit "rfp-bid-title"])]
       [NText (lit "no link")];
     title_block "/opportunities/a" "   ";
     NTag (lit "div") [(lit "class", AList [lit "rfp-bid-title"])]
       [NTag (lit "a") [] [NText (lit "Roof Repair")]]].

(** Two listing pages; the title Roof_Repair is on both. *)
Definition listing_0 : node :=
  NTag (lit "[document]") []
    [title_block "/opportunities/roof-repair" "Roof Repair";
     title_block "/opportunities/boiler" "Boiler's Upgrade"].

Definition listing_1 : node :=
  NTag (lit "[document]") []
    [title_block "/opportunities/roof-repair-2" "Roof Repair"].

(** The sample runtime on a site with these two listing pages. *)
Definition listing_runtime : runtime := {|
  uni_isspace := uni_isspace sample_runtime;
  uni_isdigit := uni_isdigit sample_runtime;
  uni_isalnum := uni_isalnum sample_runtime;
  uni_lower := uni_lower sample_runtime;
  repr_str := repr_str sample_runtime;
  hash_none := hash_none sample_runtime;
  hash_int := hash_int sample_runtime;
  hash_str := hash_str sample_runtime;
  hash_tuple := hash_tuple sample_runtime;
  hash_frozenset := hash_frozenset sample_runtime;
  tempdir := tempdir sample_runtime;
  pickle_dumps := pickle_dumps sample_runtime;
  pickle_loads := pickle_loads sample_runtime;
  yaml_safe_load := yaml_safe_load sample_runtime;
  http_get := fun url =>
    if str_eqb url (URL ++ lit "bid-results-and-awards?page=0")
    then Ok listing_0
    else if str_eqb url (URL ++ lit "bid-results-and-awards?page=1")
    then Ok listing_1
    else Raise HTTPError
|}.

(** A table of awards, and a page that holds it. *)
Definition awards_table : node :=
  NTag (lit "table") [(lit "id", AStr (lit "awardlist"))]
    [tr [td "No"; td "Firm"; td "Award"];
     tr [td "1"; td "Acme Roofing"; td " $1,150,000 "];
     tr [td "total"; td "1"]].

Definition awards_page : node :=
  NTag (lit "[document]") [] [awards_table].

(** The world of the examples with a cache file left behind. *)
Definition stale_world : world := {|
  files := fun path =>
    if str_eqb path (lit "/tmp/extract_multiple_to_df_0_0.pkl")
    then Some (lit "stale") else files sample_world path;
  trace := []
|}.

(** ** Strings: lemmas *)

Lemma replace_from_skip old new k s :
  replace_from old new k s = replace_from old new 0 (skipn k s).
Proof.
  revert k; induction s as [|c s IH]; intros [|k]; simpl; auto.
Qed.

Lemma replace_from_hit old new s :
  old <> [] -> startswith old s = true ->
  replace_from old new 0 s = new ++ replace_from old new 0 (skipn (length old) s).
Proof.
  intros Hne Hs. destruct s as [|c s].
  - destruct old; [congruence | discriminate].
  - cbn [replace_from]. rewrite Hs. rewrite replace_from_skip.
    destruct old as [|a old]; [congruence|].
    simpl. rewrite Nat.sub_0_r. reflexivity.
Qed.

Lemma replace_from_miss old new c s :
  startswith old (c :: s) = false ->
  replace_from old new 0 (c :: s) = c :: replace_from old new 0 s.
Proof. intros Hs. cbn [replace_from]. rewrite Hs. reflexivity. Qed.

(** The scan as an induction principle. *)
Lemma scan_ind (old : str) (P : str -> Prop) :
  old <> [] ->
  P [] ->
  (forall s, startswith old s = true -> P (skipn (length old) s) -> P s) ->
  (forall c s, startswith old (c :: s) = false -> P s -> P (c :: s)) ->
  forall s, P s.
Proof.
  intros Hne Hnil Hhit Hmiss s.
  remember (length s) as n eqn:Hn.
  revert s Hn. induction n as [n IH] using lt_wf_ind. intros s Hn.
  destruct s as [|c s]; [exact Hnil|].
  destruct (startswith old (c :: s)) eqn:Hs.
  - apply Hhit; [exact Hs|].
    destruct old as [|a old]; [congruence|].
    eapply IH; [|reflexivity].
    subst n. simpl. pose proof (length_skipn (length old) s). lia.
  - apply Hmiss; [exact Hs|]. eapply IH; [|reflexivity]. subst n. simpl. lia.
Qed.

Lemma replace_Replaced old new s :
  old <> [] -> Replaced old new s (replace old new s).
Proof.
  intros Hne. destruct old as [|a old]; [congruence|]. unfold replace.
  pattern s. apply (scan_ind (a :: old)); [exact Hne| | |].
  - constructor.
  - intros t Ht IH. rewrite replace_from_hit by assumption.
    now apply Replaced_hit.
  - intros c t Ht IH. rewrite replace_from_miss by assumption.
    now apply Replaced_miss.
Qed.

Lemma Replaced_fun old new s t1 t2 :
  old <> [] -> Replaced old new s t1 -> Replaced old new s t2 -> t1 = t2.
Proof.
  intros Hne H1. revert t2.
  induction H1 as [|s t Hs _ IH|c s t Hs _ IH]; intros t2 H2.
  - inversion H2; subst; auto.
    destruct old; [congruence | discriminate].
  - inversion H2; subst.
    + destruct old; [congruence | discriminate].
    + f_equal. now apply IH.
    + congruence.
  - inversion H2; subst.
    + congruence.
    + f_equal. now apply IH.
Qed.

Lemma replace_char_delete a s :
  replace [a] [] s = filter (fun c => negb (c =? a)) s.
Proof.
  unfold replace. induction s as [|c s IH]; [reflexivity|].
  cbn [replace_from startswith filter length Nat.sub app].
  rewrite andb_true_r, (N.eqb_sym a c).
  destruct (c =? a); simpl; rewrite IH; reflexivity.
Qed.

Lemma replace_char_char a b s :
  replace [a] [b] s = map (fun c => if c =? a then b else c) s.
Proof.
  unfold replace. induction s as [|c s IH]; [reflexivity|].
  cbn [replace_from startswith map length Nat.sub app].
  rewrite andb_true_r, (N.eqb_sym a c).
  destruct (c =? a); simpl; rewrite IH; reflexivity.
Qed.

(** A string in which [old] does not occur is left as it is. *)
Lemma replace_from_absent old new s :
  contains old s = false -> replace_from old new 0 s = s.
Proof.
  induction s as [|c s IH]; [reflexivity|].
  cbn [contains]. intros H. apply orb_false_iff in H as [H1 H2].
  rewrite replace_from_miss by exact H1. now rewrite IH.
Qed.

(** Replacing keeps a property of the characters that the new text has. *)
Lemma replace_from_Forall (Q : N -> Prop) old new k s :
  Forall Q new -> Forall Q s -> Forall Q (replace_from old new k s).
Proof.
  intros Hn. revert k. induction s as [|c s IH]; intros k Hs; [constructor|].
  inversion Hs as [|? ? Hc Hs']; subst.
  destruct k as [|k]; cbn [replace_from]; [|now apply IH].
  destruct (startswith old (c :: s)).
  - apply Forall_app; split; [exact Hn | now apply IH].
  - constructor; [exact Hc | now apply IH].
Qed.

(** What the scan for ["_–_"] puts first. *)
Lemma dashed_head s :
  replace_from DASHED [HYPHEN] 0 s =
  match s with
  | [] => []
  | c :: s' =>
      if startswith DASHED s
      then HYPHEN :: replace_from DASHED [HYPHEN] 0 (skipn 3 s)
      else c :: replace_from DASHED [HYPHEN] 0 s'
  end.
Proof.
  destruct s as [|c s]; [reflexivity|].
  destruct (startswith DASHED (c :: s)) eqn:Hs.
  - rewrite replace_from_hit by (assumption || discriminate). reflexivity.
  - now rewrite replace_from_miss.
Qed.

Lemma startswith_dashed l :
  startswith DASHED l = true ->
  exists r, l = UNDERSCORE :: EN_DASH :: UNDERSCORE :: r.
Proof.
  unfold DASHED.
  destruct l as [|a [|b [|c r]]]; cbn [startswith]; intros H;
    repeat (apply andb_prop in H as [? H]); try discriminate.
  repeat match goal with E : (_ =? _) = true |- _ => apply N.eqb_eq in E end.
  subst. now exists r.
Qed.

(** After the scan no ["_–_"] is left. *)
Lemma dashed_gone s :
  contains DASHED (replace_from DASHED [HYPHEN] 0 s) = false.
Proof.
  pattern s. apply (scan_ind DASHED); [discriminate|reflexivity| |].
  - intros t Ht IH. rewrite replace_from_hit by (assumption || discriminate).
    cbn [app contains]. rewrite IH. reflexivity.
  - intros c t Ht IH. rewrite replace_from_miss by assumption.
    cbn [contains]. rewrite IH, orb_false_r.
    destruct (startswith DASHED (c :: replace_from DASHED [HYPHEN] 0 t)) eqn:E;
      [|reflexivity].
    exfalso. apply startswith_dashed in E as [r E].
    injection E as -> E. rewrite (dashed_head t) in E.
    destruct t as [|d t]; [discriminate|].
    destruct (startswith DASHED (d :: t)); [discriminate|].
    injection E as -> E. rewrite (dashed_head t) in E.
    destruct t as [|e t]; [discriminate|].
    destruct (startswith DASHED (e :: t)); [discriminate|].
    injection E as -> E. discriminate Ht.
Qed.

Lemma dashed_idempotent s :
  replace DASHED [HYPHEN] (replace DASHED [HYPHEN] s) = replace DASHED [HYPHEN] s.
Proof. unfold replace, DASHED. apply replace_from_absent, dashed_gone. Qed.

Lemma filter_id {A} (p : A -> bool) l :
  Forall (fun x => p x = true) l -> filter p l = l.
Proof.
  induction 1 as [|x l Hx _ IH]; [reflexivity|]. simpl. now rewrite Hx, IH.
Qed.

Lemma map_id_on {A} (f : A -> A) l :
  Forall (fun x => f x = x) l -> map f l = l.
Proof.
  induction 1 as [|x l Hx _ IH]; [reflexivity|]. simpl. now rewrite Hx, IH.
Qed.

Lemma normalize_steps t :
  normalize t =
  replace DASHED [HYPHEN] (spaces_to_underscores (strip_apostrophes t)).
Proof.
  unfold normalize, spaces_to_underscores, strip_apostrophes.
  now rewrite replace_char_delete, replace_char_char.
Qed.

(** A normalized title holds no apostrophe and no space. *)
Lemma normalize_clean t :
  Forall (fun c => c <> APOSTROPHE /\ c <> SPACE) (normalize t).
Proof.
  rewrite normalize_steps. unfold replace, DASHED.
  apply replace_from_Forall.
  - repeat constructor; discriminate.
  - unfold spaces_to_underscores, strip_apostrophes.
    apply Forall_forall. intros c Hc.
    apply in_map_iff in Hc as [b [Hb Hin]].
    apply filter_In in Hin as [_ Hne].
    apply negb_true_iff, N.eqb_neq in Hne.
    destruct (b =? SPACE) eqn:E; subst c.
    + split; discriminate.
    + apply N.eqb_neq in E. now split.
Qed.

(** C4: the normalization of a title is the rule of the specification:
    the apostrophes are taken out, every space becomes an underscore,
    and then the occurrences of ["_–_"] (from the left, none overlapping
    another) become a hyphen; the title "Request for Proposal – Roof
    Repair" becomes "Request_for_Proposal-Roof_Repair". *)
Theorem normalize_is_the_rule :
  (forall t,
      Replaced DASHED [HYPHEN]
               (spaces_to_underscores (strip_apostrophes t)) (normalize t))
  /\ (forall t u,
         Replaced DASHED [HYPHEN]
                  (spaces_to_underscores (strip_apostrophes t)) u ->
         u = normalize t)
  /\ normalize (lit "Request for Proposal " ++ [EN_DASH] ++ lit " Roof Repair")
     = lit "Request_for_Proposal-Roof_Repair".
Proof.
  split; [|split].
  - intros t. rewrite normalize_steps. apply replace_Replaced. discriminate.
  - intros t u Hu. eapply Replaced_fun; [|exact Hu|].
    + discriminate.
    + rewrite normalize_steps. apply replace_Replaced. discriminate.
  - reflexivity.
Qed.

(** C8: normalizing a normalized title changes nothing. *)
Theorem normalize_idempotent (s : str) :
  normalize (normalize s) = normalize s.
Proof.
  rewrite (normalize_steps (normalize s)).
  pose proof (normalize_clean s) as Hc.
  unfold strip_apostrophes, spaces_to_underscores.
  rewrite filter_id, map_id_on.
  - rewrite (normalize_steps s). apply dashed_idempotent.
  - eapply Forall_impl; [|exact Hc]. intros c [_ Hsp]. simpl.
    apply N.eqb_neq in Hsp. now rewrite Hsp.
  - eapply Forall_impl; [|exact Hc]. intros c [Hap _]. simpl.
    apply N.eqb_neq in Hap. now rewrite Hap.
Qed.

(** ** Loops *)

Lemma rfor_ext {A S} (xs : list A) (f g : S -> A -> result S) s :
  (forall s x, In x xs -> f s x = g s x) -> rfor xs f s = rfor xs g s.
Proof.
  revert s. induction xs as [|x xs IH]; intros s H; [reflexivity|].
  simpl. rewrite H by now left.
  destruct (g s x); simpl; [|reflexivity].
  apply IH. intros s' y Hy. apply H. now right.
Qed.

(** A loop that appends [f x] for the [x] that pass [p]. *)
Lemma rfor_filter_map {A B} (p : A -> bool) (f : A -> B) xs acc :
  rfor xs (fun acc x => if p x then Ok (acc ++ [f x]) else Ok acc) acc
  = Ok (acc ++ map f (filter p xs)).
Proof.
  revert acc. induction xs as [|x xs IH]; intros acc; simpl.
  - now rewrite app_nil_r.
  - destruct (p x); simpl; rewrite IH; [|reflexivity].
    now rewrite <- app_assoc.
Qed.

Section Properties.

Variable rt : runtime.

(** ** The numbers of a sentence *)

Lemma char_before_cons prev c body :
  char_before prev (c :: body) = char_before (Some c) body.
Proof. reflexivity. Qed.

Lemma star_closing p s : forall prev,
  match star p prev s (closing rt) with
  | Some r =>
      exists body,
        s = body ++ r /\ forallb p body = true
        /\ boundary rt (char_before prev body) r = true
        /\ forall body' r',
            s = body' ++ r' -> forallb p body' = true ->
            boundary rt (char_before prev body') r' = true ->
            (length body' <= length body)%nat
  | None =>
      forall body' r',
        s = body' ++ r' -> forallb p body' = true ->
        boundary rt (char_before prev body') r' = false
  end.
Proof.
  induction s as [|c s IH]; intros prev.
  - cbn [star]. unfold closing. destruct (boundary rt prev []) eqn:B.
    + exists []. repeat split; auto.
      intros body' r' E _ _. symmetry in E. apply app_eq_nil in E as [-> _]. simpl; lia.
    + intros body' r' E _. symmetry in E. apply app_eq_nil in E as [-> ->]. exact B.
  - assert (Hstop : forall body' r', c :: s = body' ++ r' -> forallb p body' = true ->
              (body' = [] /\ r' = c :: s) \/
              (exists b, body' = c :: b /\ s = b ++ r' /\ forallb p b = true /\ p c = true)).
    { intros [|x b] r' E F; [left; now split|right].
      injection E as <- E. simpl in F. apply andb_prop in F as [F1 F2].
      exists b. auto. }
    assert (Hk : match closing rt prev (c :: s) with
                 | Some r => r = c :: s /\ boundary rt prev (c :: s) = true
                 | None => boundary rt prev (c :: s) = false
                 end).
    { unfold closing. destruct (boundary rt prev (c :: s)); auto. }
    cbn [star]. destruct (p c) eqn:Pc.
    + specialize (IH (Some c)).
      destruct (star p (Some c) s (closing rt)) as [r|].
      * destruct IH as [body [E [F [B Mx]]]].
        exists (c :: body). rewrite char_before_cons. simpl. rewrite Pc, F.
        repeat split; auto; [now rewrite E|].
        intros body' r' E' F' B'.
        destruct (Hstop _ _ E' F') as [[-> _]|[b [-> [E2 [F2 _]]]]]; simpl; [lia|].
        apply le_n_S. apply (Mx b r'); auto.
      * destruct (closing rt prev (c :: s)) as [r|].
        -- destruct Hk as [-> B]. exists []. repeat split; auto.
           intros body' r' E' F' B'.
           destruct (Hstop _ _ E' F') as [[-> _]|[b [-> [E2 [F2 _]]]]]; simpl; [lia|].
           rewrite char_before_cons in B'. rewrite (IH b r') in B'; auto. discriminate.
        -- intros body' r' E' F'.
           destruct (Hstop _ _ E' F') as [[-> ->]|[b [-> [E2 [F2 _]]]]];
             [exact Hk | rewrite char_before_cons; now apply IH].
    + destruct (closing rt prev (c :: s)) as [r|].
      * destruct Hk as [-> B]. exists []. repeat split; auto.
        intros body' r' E' F' B'.
        destruct (Hstop _ _ E' F') as [[-> _]|[b [-> [E2 [F2 Pc']]]]]; simpl; [lia|congruence].
      * intros body' r' E' F'.
        destruct (Hstop _ _ E' F') as [[-> ->]|[b [-> [E2 [F2 Pc']]]]];
          [exact Hk | congruence].
Qed.

Lemma rmatch_number prev s :
  rmatch rt (NUMBER_RE rt) prev s (fun _ rest => Some rest) =
  if boundary rt prev s then
    match s with
    | d :: s1 =>
        if isdigit rt d then star (digit_or_comma rt) (Some d) s1 (closing rt)
        else None
    | [] => None
    end
  else None.
Proof. reflexivity. Qed.

Lemma firstn_length_app {A} (a b : list A) : firstn (length a) (a ++ b) = a.
Proof. induction a; simpl; congruence. Qed.

Lemma skipn_length_app {A} (a b : list A) : skipn (length a) (a ++ b) = b.
Proof. induction a; simpl; congruence. Qed.

Lemma app_same_length {A} (a c b d : list A) :
  length a = length c -> a ++ b = c ++ d -> a = c /\ b = d.
Proof.
  revert c. induction a as [|x a IH]; intros [|y c] L E; try discriminate.
  - now split.
  - injection E as -> E. injection L as L.
    destruct (IH c L E) as [-> ->]. now split.
Qed.

(** What [NUMBER_RE] matches at a position is the number there. *)
Lemma match_here_number prev s :
  match match_here rt (NUMBER_RE rt) prev s with
  | Some n =>
      exists tok rest,
        number_at rt prev s tok rest
        /\ n = length tok /\ firstn n s = tok /\ skipn n s = rest
  | None => forall tok rest, ~ number_at rt prev s tok rest
  end.
Proof.
  unfold match_here. rewrite rmatch_number.
  destruct (boundary rt prev s) eqn:B.
  2:{ intros tok rest (d & body & _ & _ & B' & _). congruence. }
  destruct s as [|d s1].
  { intros tok rest (d & body & -> & E & _). discriminate. }
  destruct (isdigit rt d) eqn:D.
  2:{ intros tok rest (d' & body & -> & E & _ & D' & _).
      injection E as <- _. congruence. }
  pose proof (star_closing (digit_or_comma rt) s1 (Some d)) as H.
  destruct (star (digit_or_comma rt) (Some d) s1 (closing rt)) as [r|].
  - destruct H as (body & E & F & Bd & Mx). subst s1.
    exists (d :: body), r.
    assert (L : (length (d :: body ++ r) - length r)%nat = length (d :: body)).
    { cbn [length]. rewrite length_app. lia. }
    rewrite L. repeat split.
    + exists d, body. repeat split; auto.
      intros body' rest' E' [F' B']. injection E' as E'. now apply (Mx body' rest').
    + simpl. now rewrite firstn_length_app.
    + simpl. now rewrite skipn_length_app.
  - intros tok rest (d' & body & -> & E & _ & _ & [F Bd] & _).
    injection E as <- E. rewrite (H body rest) in Bd; auto. discriminate.
Qed.

Lemma number_at_fun prev s t1 r1 t2 r2 :
  number_at rt prev s t1 r1 -> number_at rt prev s t2 r2 -> t1 = t2 /\ r1 = r2.
Proof.
  intros (d1 & b1 & -> & E1 & _ & _ & N1 & M1) (d2 & b2 & -> & E2 & _ & _ & N2 & M2).
  subst s. injection E2 as <- E.
  assert (L : length b1 = length b2).
  { apply Nat.le_antisymm.
    - apply (M2 b1 r1); auto; simpl; congruence.
    - apply (M1 b2 r2); auto; simpl; congruence. }
  destruct (app_same_length _ _ _ _ L E) as [-> ->]. now split.
Qed.

Lemma findall_from_skip r s : forall prev k,
  (k <= length s)%nat ->
  findall_from rt r prev k s
  = findall_from rt r (char_before prev (firstn k s)) 0 (skipn k s).
Proof.
  induction s as [|c s IH]; intros prev [|k] L; try reflexivity.
  - simpl in L. lia.
  - cbn [findall_from firstn skipn]. rewrite char_before_cons.
    apply IH. simpl in L. lia.
Qed.

(** [findall] with [NUMBER_RE] lists the numbers of the sentence. *)
Lemma findall_from_Numbers s : forall prev,
  Numbers rt prev s (findall_from rt (NUMBER_RE rt) prev 0 s).
Proof.
  remember (length s) as n eqn:Hn. revert s Hn.
  induction n as [n IH] using lt_wf_ind. intros s Hn prev.
  destruct s as [|c s].
  - cbn [findall_from]. pose proof (match_here_number prev []) as H.
    destruct (match_here rt (NUMBER_RE rt) prev []) as [k|]; [|constructor].
    destruct H as (tok & rest & (d & body & -> & E & _) & _). discriminate.
  - cbn [findall_from]. pose proof (match_here_number prev (c :: s)) as H.
    destruct (match_here rt (NUMBER_RE rt) prev (c :: s)) as [k|].
    + destruct H as (tok & rest & Hn' & -> & Ht & Hr).
      rewrite Ht. apply Numbers_hit with (rest := rest); [exact Hn'|].
      destruct Hn' as (d & body & -> & E & _).
      injection E as <- E. subst s.
      rewrite findall_from_skip by (simpl; rewrite length_app; lia).
      replace (length (c :: body) - 1)%nat with (length body)
        by (cbn [length]; lia).
      rewrite firstn_length_app, skipn_length_app, char_before_cons.
      eapply IH; [|reflexivity]. subst n. simpl. rewrite length_app. lia.
    + apply Numbers_miss; [exact H|]. eapply IH; [|reflexivity]. subst n. simpl. lia.
Qed.

Lemma Numbers_fun prev s t1 t2 :
  Numbers rt prev s t1 -> Numbers rt prev s t2 -> t1 = t2.
Proof.
  intros H1. revert t2.
  induction H1 as [prev|prev s tok rest toks Hn _ IH|prev c s toks Hno _ IH];
    intros t2 H2.
  - inversion H2; subst; [reflexivity|].
    match goal with H : number_at _ _ [] _ _ |- _ =>
      destruct H as (d & body & -> & E & _); discriminate end.
  - inversion H2; subst.
    + destruct Hn as (d & body & -> & E & _); discriminate.
    + match goal with H : number_at _ _ _ ?t ?r |- _ =>
        destruct (number_at_fun _ _ _ _ _ _ Hn H) as [-> ->] end.
      f_equal. now apply IH.
    + match goal with H : forall tok rest, ~ number_at _ _ _ tok rest |- _ =>
        exfalso; eapply H; exact Hn end.
  - inversion H2; subst.
    + match goal with H : number_at _ _ _ _ _ |- _ =>
        exfalso; eapply Hno; exact H end.
    + now apply IH.
Qed.

(** ** The estimate extractor *)

Lemma estimated_loop_estimates sentences :
  estimated_loop rt sentences
  = Ok (map (mention rt (findall rt (NUMBER_RE rt)))
            (filter (mentions_estimated rt) sentences)).
Proof.
  unfold estimated_loop.
  apply (rfor_filter_map (mentions_estimated rt)
           (mention rt (findall rt (NUMBER_RE rt))) sentences []).
Qed.

(** ** Trimmed text *)

Lemma dropwhile_edge p s :
  match dropwhile p s with [] => True | c :: _ => p c = false end.
Proof.
  induction s as [|c s IH]; simpl; [exact I|].
  destruct (p c) eqn:E; [exact IH | exact E].
Qed.

Lemma dropwhile_keep p a c :
  p c = false -> dropwhile p (a ++ [c]) = dropwhile p a ++ [c].
Proof.
  intros Hc. induction a as [|x a IH]; simpl.
  - now rewrite Hc.
  - destruct (p x); [exact IH | reflexivity].
Qed.

Lemma strip_trimmed s : trimmed rt (strip rt s).
Proof.
  unfold trimmed, strip, rstrip, lstrip. split.
  - pose proof (dropwhile_edge (isspace rt) s) as H.
    destruct (dropwhile (isspace rt) s) as [|c t]; [reflexivity|].
    simpl rev. rewrite dropwhile_keep by exact H.
    rewrite rev_app_distr. simpl. now rewrite H.
  - rewrite rev_involutive.
    pose proof (dropwhile_edge (isspace rt)
                  (rev (dropwhile (isspace rt) s))) as H.
    destruct (dropwhile (isspace rt) (rev (dropwhile (isspace rt) s)));
      [reflexivity|]. simpl. now rewrite H.
Qed.

Lemma trimmed_strip s : trimmed rt s -> strip rt s = s.
Proof.
  intros [H1 H2].
  assert (E : forall t, edge rt t = true -> dropwhile (isspace rt) t = t).
  { intros [|c t] H; [reflexivity|]. simpl in *.
    apply negb_true_iff in H. now rewrite H. }
  unfold strip, rstrip, lstrip. rewrite (E s H1), (E (rev s) H2).
  apply rev_involutive.
Qed.

Lemma trimmed_app a b : trimmed rt a -> trimmed rt b -> trimmed rt (a ++ b).
Proof.
  intros [A1 A2] [B1 B2]. split.
  - destruct a; [exact B1 | exact A1].
  - rewrite rev_app_distr. destruct (rev b); [exact A2 | exact B2].
Qed.

Lemma trimmed_concat l : Forall (trimmed rt) l -> trimmed rt (concat l).
Proof.
  induction 1 as [|s l Hs _ IH]; simpl; [now split|].
  now apply trimmed_app.
Qed.

(** The text of a tag has no white space at either end. *)
Lemma get_text_trimmed n : strip rt (get_text rt n) = get_text rt n.
Proof.
  apply trimmed_strip. unfold get_text. apply trimmed_concat.
  apply Forall_forall. intros s Hs.
  apply filter_In in Hs as [Hs _].
  apply in_map_iff in Hs as [t [<- _]]. apply strip_trimmed.
Qed.

(** ** The rows of a table *)

Lemma index_nth {A} (l : list A) i d :
  (i < length l)%nat -> index l i = Ok (nth i l d).
Proof.
  intros H. unfold index.
  destruct (nth_error l i) eqn:E.
  - now rewrite (nth_error_nth _ _ d E).
  - apply nth_error_None in E. lia.
Qed.

Lemma rows_loop_rows name amount rows :
  rows_loop rt name amount rows
  = Ok (map (table_row rt name amount)
            (filter (fun row => (3 <=? length (cells row))%nat) rows)).
Proof.
  unfold rows_loop.
  etransitivity;
    [|exact (rfor_filter_map
               (fun row => (3 <=? length (cells row))%nat)
               (table_row rt name amount) rows [])].
  apply rfor_ext. intros acc row _. fold (cells row).
  destruct (3 <=? length (cells row))%nat eqn:E; [|reflexivity].
  apply Nat.leb_le in E.
  rewrite (index_nth _ 1 (NText [])), (index_nth _ 2 (NText [])) by lia.
  reflexivity.
Qed.

(** ** The record of a page *)

Lemma extract_data_record soup :
  extract_data rt soup = Ok (opportunity_record rt soup).
Proof.
  unfold extract_data, opportunity_record, page_title, page_estimates,
    page_rows, table_rows, estimates.
  destruct (tag_find soup (lit "h1") _) as [title_tag|];
    destruct (tag_find soup (lit "div") _) as [notice|];
    destruct (tag_find soup (lit "table") [(lit "id", lit "bidresultlist")])
      as [bids|];
    destruct (tag_find soup (lit "table") [(lit "id", lit "awardlist")])
      as [awards|];
    cbn [bound call rbind];
    rewrite ?estimated_loop_estimates, ?rows_loop_rows; reflexivity.
Qed.

(** C3, as the code has it: the text is split on periods, the sentences
    that hold "estimated" in lower case are kept, each with its numbers,
    also when it has none (this is the field estimated_numbers of a page
    with a notice section); the numbers of a sentence are the matches of
    [\b\d[\d,]*\b], that is, from the left and none overlapping another,
    the longest runs of digits and commas that start with a digit at a
    word boundary and end at a word boundary.  The text "Total estimated
    cost is 1,250,000 dollars. Other info here." gives one mention, with
    the one number "1,250,000". *)
Theorem estimates_by_word_boundaries :
  (forall text,
      estimated_loop rt (split_on 46 text)
      = Ok (map (fun sentence =>
                   PTuple [PStr (strip rt sentence);
                           PList (map PStr (findall rt (NUMBER_RE rt) sentence))])
                (filter (fun sentence =>
                           contains (lit "estimated") (lower rt sentence))
                        (split_on 46 text))))
  /\ (forall sentence numbers,
         Numbers rt None sentence numbers
         <-> numbers = findall rt (NUMBER_RE rt) sentence)
  /\ (forall soup notice_section,
         tag_find soup (lit "div") [(lit "id", lit "rfp-ad-notice")]
         = Some notice_section ->
         exists record,
           extract_data rt soup = Ok record
           /\ dict_get (lit "estimated_numbers") record
              = Some (PList (estimates rt (get_text rt notice_section))))
  /\ estimated_loop rt
       (split_on 46
          (lit "Total estimated cost is 1,250,000 dollars. Other info here."))
     = Ok [PTuple [PStr (lit "Total estimated cost is 1,250,000 dollars");
                   PList [PStr (lit "1,250,000")]]].
Proof.
  split; [|split; [|split]].
  - intros text. apply estimated_loop_estimates.
  - intros sentence numbers. split.
    + intros H. eapply Numbers_fun; [exact H|]. apply findall_from_Numbers.
    + intros ->. apply findall_from_Numbers.
  - intros soup notice_section H. exists (opportunity_record rt soup).
    split; [apply extract_data_record|].
    cbn. unfold page_estimates. now rewrite H.
  - reflexivity.
Qed.

(** C5: the extraction never raises; it returns a record of the four
    fields, whose title is "Title not found" when the page has no
    heading of the class page-header, and whose estimated numbers, bid
    results and awards are empty when the page has no notice section, no
    table of bid results, no table of awards. *)
Theorem extract_data_error_free (soup : node) :
  exists title estimated_numbers bid_results awards,
    extract_data rt soup
    = Ok (PDict [(key "title", PStr title);
                 (key "estimated_numbers", PList estimated_numbers);
                 (key "bid_results", PList bid_results);
                 (key "awards", PList awards)])
    /\ (tag_find soup (lit "h1") [(lit "class", lit "page-header")] = None ->
        title = lit "Title not found")
    /\ (tag_find soup (lit "div") [(lit "id", lit "rfp-ad-notice")] = None ->
        estimated_numbers = [])
    /\ (tag_find soup (lit "table") [(lit "id", lit "bidresultlist")] = None ->
        bid_results = [])
    /\ (tag_find soup (lit "table") [(lit "id", lit "awardlist")] = None ->
        awards = []).
Proof.
  exists (page_title rt soup), (page_estimates rt soup),
    (page_rows rt "bidresultlist" "company" "bid_amount" soup),
    (page_rows rt "awardlist" "firm_name" "award_amt" soup).
  split; [apply extract_data_record|].
  unfold page_title, page_estimates, page_rows.
  repeat split; intros H; now rewrite H.
Qed.

(** C6: when the page has the table of bid results, the field
    bid_results holds, in the order of the rows, one entry for every row
    after the first that has at least three cells, made of the texts of
    its cells 1 and 2, which have no white space at either end; a row of
    fewer cells gives no entry.  A header row and two rows of at least
    three cells give exactly two entries, in the order of the rows. *)
Theorem bid_results_in_row_order (soup table : node) :
  tag_find soup (lit "table") [(lit "id", lit "bidresultlist")] = Some table ->
  exists record bid_results,
    extract_data rt soup = Ok record
    /\ dict_get (lit "bid_results") record = Some (PList bid_results)
    /\ bid_results
       = map (fun row =>
                PDict [(key "company", PStr (cell_text rt row 1));
                       (key "bid_amount", PStr (cell_text rt row 2))])
             (filter (fun row => (3 <=? length (cells row))%nat)
                     (tl (tag_find_all table (lit "tr") [])))
    /\ (forall row i, strip rt (cell_text rt row i) = cell_text rt row i)
    /\ (forall header row1 row2,
           tag_find_all table (lit "tr") [] = [header; row1; row2] ->
           (3 <= length (cells row1))%nat ->
           (3 <= length (cells row2))%nat ->
           bid_results
           = [PDict [(key "company", PStr (cell_text rt row1 1));
                     (key "bid_amount", PStr (cell_text rt row1 2))];
              PDict [(key "company", PStr (cell_text rt row2 1));
                     (key "bid_amount", PStr (cell_text rt row2 2))]]).
Proof.
  intros Ht.
  exists (opportunity_record rt soup),
    (page_rows rt "bidresultlist" "company" "bid_amount" soup).
  split; [apply extract_data_record|].
  split; [reflexivity|].
  unfold page_rows. rewrite Ht. unfold table_rows, table_row.
  split; [reflexivity|]. split.
  - intros row i. apply get_text_trimmed.
  - intros header row1 row2 Hrows H1 H2. rewrite Hrows. cbn [tl filter].
    apply Nat.leb_le in H1, H2. now rewrite H1, H2.
Qed.

(** ** The loader *)

Lemma load_yaml_to_dict_cases file_path w :
  load_yaml_to_dict rt file_path w
  = match files w file_path with
    | Some content =>
        match yaml_safe_load rt content with
        | Ok data => (Ok data, w)
        | Raise e =>
            (Ok PNone, after w [EvPrintErr (lit "Error reading YAML file: ") e])
        end
    | None =>
        (Ok PNone,
         after w [EvPrintErr (lit "Error reading YAML file: ") FileNotFoundError])
    end.
Proof.
  unfold load_yaml_to_dict, try_except, bind, read_file, lift, ret, emit, after.
  destruct (files w file_path) as [content|]; [|reflexivity].
  destruct (yaml_safe_load rt content); reflexivity.
Qed.

(** C9: the loader never raises.  When the file is missing, or its
    contents do not parse, it prints the error and returns None; when
    the file is there and parses, it returns what the parser read and
    does nothing else. *)
Theorem load_yaml_to_dict_never_raises (file_path : str) (w : world) :
  (exists value w', load_yaml_to_dict rt file_path w = (Ok value, w'))
  /\ (files w file_path = None ->
      load_yaml_to_dict rt file_path w
      = (Ok PNone,
         after w [EvPrintErr (lit "Error reading YAML file: ")
                             FileNotFoundError]))
  /\ (forall content e,
         files w file_path = Some content ->
         yaml_safe_load rt content = Raise e ->
         load_yaml_to_dict rt file_path w
         = (Ok PNone, after w [EvPrintErr (lit "Error reading YAML file: ") e]))
  /\ (forall content data,
         files w file_path = Some content ->
         yaml_safe_load rt content = Ok data ->
         load_yaml_to_dict rt file_path w = (Ok data, w)).
Proof.
  rewrite load_yaml_to_dict_cases. repeat split.
  - destruct (files w file_path) as [content|]; [|eauto].
    destruct (yaml_safe_load rt content); eauto.
  - now intros ->.
  - now intros content e -> ->.
  - now intros content data -> ->.
Qed.

(** ** The run *)

(** C10: when the configuration is missing or does not parse, the run
    prints the loader's error and raises AttributeError at
    [urls.values()]: nothing is fetched and nothing is written. *)
Theorem main_aborts_without_configuration
        (yaml : str) (output : option str) (w : world) :
  (files w yaml = None
   \/ exists content e,
       files w yaml = Some content /\ yaml_safe_load rt content = Raise e) ->
  exists e,
    main rt yaml output w
    = (Raise AttributeError,
       after w [EvPrintErr (lit "Error reading YAML file: ") e]).
Proof.
  intros H. unfold main, main_with.
  unfold bind at 1. rewrite load_yaml_to_dict_cases.
  destruct H as [-> | (content & e & -> & ->)]; eexists; reflexivity.
Qed.

(** What the decorator does first: it hashes the arguments. *)
Lemma py_hash_list_first records rest :
  py_hash rt (PTuple (PList records :: rest)) = Raise TypeError.
Proof. reflexivity. Qed.

Lemma temp_pickle_list name func records rest kwargs w :
  temp_pickle rt name func (PList records :: rest) kwargs w
  = (Raise TypeError, w).
Proof.
  unfold temp_pickle, bind at 1. unfold lift.
  now rewrite py_hash_list_first.
Qed.

Lemma after_nil w : after w [] = w.
Proof. destruct w. unfold after. simpl. now rewrite app_nil_r. Qed.

Lemma after_after w a b : after (after w a) b = after w (a ++ b).
Proof. unfold after. simpl. now rewrite app_assoc. Qed.

(** One round of the loop: the address is built, the page is fetched and
    its record is put behind the others. *)
Lemma fetch_record_cases data url w :
  fetch_record rt data url w
  = match url with
    | PStr s =>
        match http_get rt (SITE ++ s) with
        | Ok soup =>
            (Ok (data ++ [opportunity_record rt soup]),
             after w [EvGet (SITE ++ s)])
        | Raise e => (Raise e, after w [EvGet (SITE ++ s)])
        end
    | _ => (Raise TypeError, w)
    end.
Proof.
  unfold fetch_record, get_full_html, bind, lift, ret, emit, str_add.
  destruct url; try reflexivity. fold (after w [EvGet (SITE ++ s)]).
  destruct (http_get rt (SITE ++ s)) as [soup|e]; [|reflexivity].
  now rewrite extract_data_record.
Qed.

(** The loop of the run fetches; it writes nothing. *)
Lemma fetch_loop_quiet values : forall data w,
  exists events,
    snd (mfor values (fetch_record rt) data w) = after w events
    /\ Forall (fun ev => is_write ev = false) events.
Proof.
  induction values as [|url values IH]; intros data w.
  - exists []. split; [symmetry; apply after_nil | constructor].
  - cbn [mfor]. unfold bind. rewrite fetch_record_cases.
    assert (Q : exists events, w = after w events
                /\ Forall (fun ev => is_write ev = false) events).
    { exists []. split; [symmetry; apply after_nil | constructor]. }
    destruct url; try exact Q.
    destruct (http_get rt (SITE ++ s)) as [soup|e].
    + destruct (IH (data ++ [opportunity_record rt soup])
                   (after w [EvGet (SITE ++ s)])) as (events & E & F).
      exists (EvGet (SITE ++ s) :: events). rewrite E, after_after.
      split; [reflexivity | now constructor].
    + exists [EvGet (SITE ++ s)]. split; [reflexivity | now repeat constructor].
Qed.

(** With every link a string and every page there, the loop ends with
    the records of the pages, in the order of the links. *)
Lemma fetch_loop_pages values pages : forall data w,
  Forall2 (fun url page =>
             url = PStr (fst page)
             /\ http_get rt (SITE ++ fst page) = Ok (snd page))
          values pages ->
  mfor values (fetch_record rt) data w
  = (Ok (data ++ map (fun page => opportunity_record rt (snd page)) pages),
     after w (map (fun page => EvGet (SITE ++ fst page)) pages)).
Proof.
  intros data w H. revert data w.
  induction H as [|url page values pages [-> Hp] _ IH]; intros data w.
  - simpl. now rewrite app_nil_r, after_nil.
  - cbn [mfor]. unfold bind. rewrite fetch_record_cases, Hp, IH.
    now rewrite after_after, <- app_assoc.
Qed.

Lemma load_yaml_to_dict_quiet file_path w :
  exists value events,
    load_yaml_to_dict rt file_path w = (Ok value, after w events)
    /\ Forall (fun ev => is_write ev = false) events.
Proof.
  rewrite load_yaml_to_dict_cases.
  destruct (files w file_path) as [content|].
  - destruct (yaml_safe_load rt content) as [data|e].
    + exists data, []. rewrite after_nil. split; [reflexivity | constructor].
    + eexists _, _. split; [reflexivity | now repeat constructor].
  - eexists _, _. split; [reflexivity | now repeat constructor].
Qed.

(** C1: the decorator hashes its arguments first, so a call with a list
    as the first argument raises TypeError and leaves the world as it
    was, whatever the wrapped function is: the body does not run.  This
    is the call of the run, so the run always ends in an exception and
    neither writer is ever reached. *)
Theorem aggregation_raises_before_the_body :
  (forall name func records rest kwargs w,
      temp_pickle rt name func (PList records :: rest) kwargs w
      = (Raise TypeError, w))
  /\ (forall records iscsv w,
         extract_multiple_to_df rt [PList records; PBool iscsv] [] w
         = (Raise TypeError, w))
  /\ (forall yaml output w,
         exists e events,
           main rt yaml output w = (Raise e, after w events)
           /\ Forall (fun ev => is_write ev = false) events).
Proof.
  split; [|split].
  - intros. apply temp_pickle_list.
  - intros. apply temp_pickle_list.
  - intros yaml output w. unfold main, main_with.
    destruct (load_yaml_to_dict_quiet yaml w) as (urls & ev0 & L & Q0).
    unfold bind at 1. rewrite L.
    unfold bind at 1. unfold lift at 1.
    destruct (py_values urls) as [values|e]; [|now exists e, ev0].
    unfold bind at 1.
    destruct (fetch_loop_quiet values [] (after w ev0)) as (ev1 & E & Q1).
    destruct (mfor values (fetch_record rt) [] (after w ev0)) as [[data|e] w1];
      simpl in E; subst w1; rewrite after_after.
    2:{ exists e, (ev0 ++ ev1). split; [reflexivity | now apply Forall_app]. }
    exists TypeError, (ev0 ++ ev1). split; [|now apply Forall_app].
    unfold bind at 1.
    destruct output as [path|]; cbn [not_output].
    + destruct (negb (truthy (PStr path))); unfold ret, lift, call;
        unfold bind at 1; unfold extract_multiple_to_df;
        now rewrite temp_pickle_list.
    + unfold ret. unfold bind at 1. unfold extract_multiple_to_df.
      now rewrite temp_pickle_list.
Qed.





(** ** The aggregation step without the decorator *)

Lemma map_pair_id {A B} (l : list (A * B)) :
  map (fun kv => (fst kv, snd kv)) l = l.
Proof. induction l as [|[a b] l IH]; simpl; congruence. Qed.

(** The body stringifies every value of every record for CSV and hands
    the records on as they are otherwise. *)
Lemma body_rows records iscsv w :
  forallb is_dict records = true ->
  extract_multiple_to_df_body rt [PList records; PBool iscsv] [] w
  = (Ok (PList (if iscsv then map (stringified rt) records else records)), w).
Proof.
  intros H. unfold extract_multiple_to_df_body, lift.
  cbn [bind_parameters forallb negb rbind fst snd py_iter truthy].
  f_equal.
  assert (G : forall acc,
             rfor records
               (fun processed_data data =>
                  rbind (py_items data)
                    (fun items =>
                       Ok (processed_data
                             ++ [PDict
                                   (if iscsv
                                    then map (fun kv => (fst kv, PStr (py_str rt (snd kv)))) items
                                    else map (fun kv => (fst kv, snd kv)) items)])))
               acc
             = Ok (acc ++ (if iscsv then map (stringified rt) records else records))).
  { induction records as [|r records IH]; intros acc.
    - simpl. destruct iscsv; now rewrite app_nil_r.
    - simpl in H. apply andb_prop in H as [Hr H].
      destruct r; try discriminate. cbn [rfor py_items rbind].
      rewrite (IH H). rewrite <- app_assoc.
      destruct iscsv; cbn [map stringified app]; [reflexivity|].
      now rewrite map_pair_id. }
  rewrite (G []). reflexivity.
Qed.


(** ** Dicts with string keys *)

Lemma str_eqb_eq a b : str_eqb a b = true <-> a = b.
Proof.
  revert b. induction a as [|x a IH]; intros [|y b]; simpl;
    try (split; [discriminate | discriminate]); [now split|].
  rewrite andb_true_iff, N.eqb_eq, IH. split.
  - now intros [-> ->].
  - intros E. injection E as -> ->. now split.
Qed.

Lemma str_eqb_refl a : str_eqb a a = true.
Proof. now apply str_eqb_eq. Qed.

Lemma str_eqb_neq a b : a <> b -> str_eqb a b = false.
Proof.
  intros H. destruct (str_eqb a b) eqn:E; [|reflexivity].
  apply str_eqb_eq in E. contradiction.
Qed.

Lemma is_key_eq k k' : is_key k k' = true <-> k' = PStr k.
Proof.
  destruct k'; simpl; try (split; discriminate).
  rewrite str_eqb_eq. split; [now intros -> | now intros [= ->]].
Qed.

Lemma dict_get_set k k' v items :
  dict_get k' (PDict (dict_set k v items))
  = if str_eqb k k' then Some v else dict_get k' (PDict items).
Proof.
  induction items as [|[k0 v0] items IH]; simpl.
  - destruct (str_eqb k k'); reflexivity.
  - destruct (is_key k k0) eqn:E.
    + apply is_key_eq in E. subst k0. simpl.
      destruct (str_eqb k k'); reflexivity.
    + simpl in *. destruct (is_key k' k0) eqn:E'; [|exact IH].
      apply is_key_eq in E'. subst k0. simpl in E.
      destruct (str_eqb k k') eqn:E2; [|reflexivity].
      apply str_eqb_eq in E2. subst k'. now rewrite str_eqb_refl in E.
Qed.

Lemma find_app {A} (p : A -> bool) a b :
  find p (a ++ b) = match find p a with Some x => Some x | None => find p b end.
Proof. induction a as [|x a IH]; simpl; [reflexivity|]. now destruct (p x). Qed.

(** Looking a title up after the entries were set: the last entry with
    the title decides. *)
Lemma dict_get_set_all k entries : forall items,
  dict_get k (PDict (set_all entries items))
  = match last_url k entries with
    | Some url => Some url
    | None => dict_get k (PDict items)
    end.
Proof.
  unfold set_all, last_url.
  induction entries as [|[t u] entries IH]; intros items; [reflexivity|].
  cbn [fold_left rev fst snd]. rewrite IH, find_app.
  destruct (find (fun entry => str_eqb (fst entry) k) (rev entries));
    [reflexivity|].
  rewrite dict_get_set. simpl. destruct (str_eqb t k); reflexivity.
Qed.

Lemma dict_set_keys k v items :
  map fst (dict_set k v items) = map fst items
  \/ (map fst (dict_set k v items) = map fst items ++ [PStr k]
      /\ ~ In (PStr k) (map fst items)).
Proof.
  induction items as [|[k0 v0] items IH]; simpl.
  - right. split; [reflexivity | tauto].
  - destruct (is_key k k0) eqn:E; [now left|]. simpl.
    destruct IH as [-> | [-> Hn]]; [now left|right].
    split; [reflexivity|]. intros [H|H]; [|contradiction].
    subst k0. simpl in E. now rewrite str_eqb_refl in E.
Qed.

Lemma dict_set_NoDup k v items :
  NoDup (map fst items) -> NoDup (map fst (dict_set k v items)).
Proof.
  intros H. destruct (dict_set_keys k v items) as [-> | [-> Hn]]; [exact H|].
  apply NoDup_app; [exact H | repeat constructor; tauto |].
  intros x Hx [<-|[]]. contradiction.
Qed.

Lemma dict_set_Forall (P : PyVal * PyVal -> Prop) k v items :
  P (PStr k, v) -> Forall P items -> Forall P (dict_set k v items).
Proof.
  intros Hk. induction 1 as [|[k0 v0] items H0 Ht IH]; simpl.
  - now repeat constructor.
  - destruct (is_key k k0) eqn:E.
    + apply is_key_eq in E. subst k0. now constructor.
    + now constructor.
Qed.

(** ** extract_title_url *)

Lemma title_loop title_divs : forall items,
  rfor title_divs
    (fun title_url_mapping title_div =>
       let a_tag := tag_find title_div (lit "a") [] in
       if bound a_tag then
         rbind (call a_tag (get_text rt))
           (fun text =>
              let title := normalize text in
              rbind (call a_tag (fun a => py_of_attr (tag_get a (lit "href"))))
                (fun url =>
                   if truthy (PStr title) && truthy url
                   then Ok (dict_set title url title_url_mapping)
                   else Ok title_url_mapping))
       else Ok title_url_mapping)
    items
  = Ok (set_all
          (flat_map (fun title_div =>
                       match title_entry rt title_div with
                       | Some entry => [entry]
                       | None => []
                       end) title_divs)
          items).
Proof.
  induction title_divs as [|d ds IH]; intros items; [reflexivity|].
  cbn [rfor flat_map]. unfold title_entry at 1.
  destruct (tag_find d (lit "a") []) as [a|]; cbn [bound call rbind].
  - destruct (truthy (PStr (normalize (get_text rt a)))
              && truthy (py_of_attr (tag_get a (lit "href"))));
      cbn [rbind]; rewrite IH; reflexivity.
  - rewrite IH. reflexivity.
Qed.

Lemma extract_title_url_entries soup :
  extract_title_url rt soup = Ok (PDict (set_all (title_entries rt soup) [])).
Proof.
  unfold extract_title_url, title_entries. rewrite title_loop. reflexivity.
Qed.

Lemma set_all_Forall (P : PyVal * PyVal -> Prop) entries : forall items,
  Forall (fun entry => P (PStr (fst entry), snd entry)) entries ->
  Forall P items -> Forall P (set_all entries items).
Proof.
  unfold set_all. induction entries as [|e entries IH]; intros items He Hi;
    [exact Hi|].
  inversion He; subst. cbn [fold_left]. apply IH; [assumption|].
  now apply dict_set_Forall.
Qed.

Lemma set_all_NoDup entries : forall items,
  NoDup (map fst items) -> NoDup (map fst (set_all entries items)).
Proof.
  unfold set_all. induction entries as [|e entries IH]; intros items H;
    [exact H|].
  cbn [fold_left]. apply IH. now apply dict_set_NoDup.
Qed.

Lemma title_entry_some title_div title url :
  title_entry rt title_div = Some (title, url) ->
  exists a_tag,
    tag_find title_div (lit "a") [] = Some a_tag
    /\ title = normalize (get_text rt a_tag)
    /\ url = py_of_attr (tag_get a_tag (lit "href"))
    /\ title <> [] /\ truthy url = true.
Proof.
  unfold title_entry.
  destruct (tag_find title_div (lit "a") []) as [a|]; [|discriminate].
  destruct (truthy (PStr (normalize (get_text rt a)))) eqn:T; [|discriminate].
  destruct (truthy (py_of_attr (tag_get a (lit "href")))) eqn:U;
    [|discriminate].
  intros [= <- <-]. exists a. repeat split; auto.
  intros E. rewrite E in T. discriminate.
Qed.

Lemma title_entries_In soup title url :
  In (title, url) (title_entries rt soup) ->
  exists title_div,
    In title_div
       (tag_find_all soup (lit "div") [(lit "class", lit "rfp-bid-title")])
    /\ title_entry rt title_div = Some (title, url).
Proof.
  unfold title_entries. intros H. apply in_flat_map in H as (d & Hd & H).
  exists d. split; [exact Hd|].
  destruct (title_entry rt d) as [e|]; [|contradiction].
  destruct H as [->|[]]. reflexivity.
Qed.

(** X1: a listing page none of whose title blocks has a link with a
    title and an address gives the empty mapping: such blocks are passed
    over without an error. *)
Theorem listing_without_links (soup : node) :
  (forall title_div,
      In title_div
         (tag_find_all soup (lit "div") [(lit "class", lit "rfp-bid-title")]) ->
      match tag_find title_div (lit "a") [] with
      | None => True
      | Some a_tag =>
          normalize (get_text rt a_tag) = []
          \/ truthy (py_of_attr (tag_get a_tag (lit "href"))) = false
      end) ->
  extract_title_url rt soup = Ok (PDict []).
Proof.
  intros H. rewrite extract_title_url_entries.
  destruct (title_entries rt soup) as [|[title url] entries] eqn:E;
    [reflexivity|].
  exfalso.
  assert (Hin : In (title, url) (title_entries rt soup))
    by (rewrite E; now left).
  apply title_entries_In in Hin as (d & Hd & He).
  apply title_entry_some in He as (a & Ha & -> & -> & Hn & Hu).
  specialize (H d Hd). rewrite Ha in H. destruct H as [H|H]; congruence.
Qed.

(** X2: the harvest of a page never raises; its keys are pairwise
    distinct, each key is a non-empty normalized text, without
    apostrophe and space, and each value is a non-empty address. *)
Theorem harvested_links_well_formed (soup : node) :
  exists items,
    extract_title_url rt soup = Ok (PDict items)
    /\ NoDup (map fst items)
    /\ Forall (fun kv =>
                 exists text,
                   fst kv = PStr (normalize text)
                   /\ normalize text <> []
                   /\ Forall (fun c => c <> APOSTROPHE /\ c <> SPACE)
                             (normalize text)
                   /\ truthy (snd kv) = true)
              items.
Proof.
  exists (set_all (title_entries rt soup) []).
  split; [apply extract_title_url_entries|].
  split; [apply set_all_NoDup; constructor|].
  apply set_all_Forall; [|constructor].
  apply Forall_forall. intros [title url] Hin.
  apply title_entries_In in Hin as (d & _ & He).
  apply title_entry_some in He as (a & _ & -> & -> & Hn & Hu).
  exists (get_text rt a). cbn [fst snd].
  repeat split; auto; apply normalize_clean.
Qed.

(** X3: when a title comes up more than once on a page, the mapping
    holds the address of its last title block: looking a title up gives
    the address of the last entry with that title, and nothing when no
    entry has it. *)
Theorem harvest_last_write_wins (soup : node) (title : str) :
  exists mapping,
    extract_title_url rt soup = Ok mapping
    /\ dict_get title mapping = last_url title (title_entries rt soup).
Proof.
  exists (PDict (set_all (title_entries rt soup) [])).
  split; [apply extract_title_url_entries|].
  rewrite dict_get_set_all.
  destruct (last_url title (title_entries rt soup)); reflexivity.
Qed.

(** ** The shape of a record *)

Lemma trimmed_clean s : trimmed rt s -> clean rt s = true.
Proof. intros [H1 H2]. unfold clean. now rewrite H1, H2. Qed.

Lemma get_text_clean n : clean rt (get_text rt n) = true.
Proof.
  apply trimmed_clean. unfold get_text. apply trimmed_concat.
  apply Forall_forall. intros s Hs.
  apply filter_In in Hs as [Hs _].
  apply in_map_iff in Hs as [t [<- _]]. apply strip_trimmed.
Qed.

Lemma split_on_no_sep sep s :
  Forall (fun piece => forallb (fun c => negb (c =? sep)) piece = true)
         (split_on sep s).
Proof.
  induction s as [|c s IH]; simpl; [repeat constructor|].
  destruct (c =? sep) eqn:E; [now constructor|].
  destruct (split_on sep s) as [|w ws]; [repeat constructor; simpl; now rewrite E|].
  inversion IH; subst. constructor; [|assumption].
  simpl. now rewrite E.
Qed.

Lemma forallb_dropwhile (q p : N -> bool) s :
  forallb q s = true -> forallb q (dropwhile p s) = true.
Proof.
  induction s as [|c s IH]; simpl; [reflexivity|].
  intros H. destruct (p c); [|exact H].
  apply andb_prop in H as [_ H]. now apply IH.
Qed.

Lemma forallb_rev {A} (q : A -> bool) s :
  forallb q s = true -> forallb q (rev s) = true.
Proof.
  rewrite !forallb_forall. intros H x Hx. apply H. now apply in_rev.
Qed.

Lemma forallb_strip q s : forallb q s = true -> forallb q (strip rt s) = true.
Proof.
  intros H. unfold strip, rstrip, lstrip.
  now apply forallb_rev, forallb_dropwhile, forallb_rev, forallb_dropwhile.
Qed.

(** Every number is a digit followed by digits and commas. *)
Lemma Numbers_shape prev s toks :
  Numbers rt prev s toks -> forallb (is_number rt) toks = true.
Proof.
  induction 1 as [prev|prev s tok rest toks Hn _ IH|prev c s toks _ _ IH];
    [reflexivity| |exact IH].
  destruct Hn as (d & body & -> & _ & _ & D & [F _] & _).
  cbn [forallb is_number]. now rewrite D, F, IH.
Qed.

Lemma forallb_map_comp {A B} (f : B -> bool) (g : A -> B) l :
  forallb f (map g l) = forallb (fun x => f (g x)) l.
Proof. induction l as [|x l IH]; simpl; congruence. Qed.

Lemma estimates_ok text : forallb (mention_ok rt) (estimates rt text) = true.
Proof.
  unfold estimates. apply forallb_forall. intros m Hm.
  apply in_map_iff in Hm as (s & <- & Hs).
  apply filter_In in Hs as [Hs _].
  pose proof (split_on_no_sep 46 text) as P.
  rewrite Forall_forall in P. specialize (P s Hs).
  unfold mention. cbn [mention_ok].
  rewrite (trimmed_clean _ (strip_trimmed s)).
  unfold no_period. rewrite (forallb_strip _ _ P). cbn [andb].
  rewrite forallb_map_comp.
  exact (Numbers_shape _ _ _ (findall_from_Numbers s None)).
Qed.

Lemma table_rows_ok name amount table :
  forallb (row_ok rt name amount) (table_rows rt name amount table) = true.
Proof.
  unfold table_rows. apply forallb_forall. intros r Hr.
  apply in_map_iff in Hr as (row & <- & _).
  unfold table_row, key, cell_text. cbn [row_ok].
  now rewrite !str_eqb_refl, !get_text_clean.
Qed.

(** X4: the record of any page is a dict of the fields title,
    estimated_numbers, bid_results and awards, in this order; the title
    has no white space at either end; every estimate is a pair of a
    sentence with no period and no white space at either end and of a
    list of numbers, each a digit followed by digits and commas; every
    bid is a dict of company and bid_amount, every award a dict of
    firm_name and award_amt, all of them texts with no white space at
    either end. *)
Theorem record_has_its_shape (soup : node) :
  exists record,
    extract_data rt soup = Ok record /\ record_ok rt record = true.
Proof.
  exists (opportunity_record rt soup). split; [apply extract_data_record|].
  unfold opportunity_record, key. cbn [record_ok].
  rewrite !str_eqb_refl. cbn [andb].
  assert (T : clean rt (page_title rt soup) = true).
  { unfold page_title. destruct (tag_find soup _ _); [apply get_text_clean|].
    reflexivity. }
  assert (E : forallb (mention_ok rt) (page_estimates rt soup) = true).
  { unfold page_estimates. destruct (tag_find soup _ _);
      [apply estimates_ok | reflexivity]. }
  assert (R : forall id name amount,
             forallb (row_ok rt name amount) (page_rows rt id name amount soup)
             = true).
  { intros. unfold page_rows. destruct (tag_find soup _ _);
      [apply table_rows_ok | reflexivity]. }
  now rewrite T, E, !R.
Qed.

(** X5: when the page has the table of awards, the field awards holds,
    in the order of the rows, one entry for every row after the first
    that has at least three cells, made of the texts of its cells 1 and
    2; a table with at most one row gives no entry. *)
Theorem awards_in_row_order (soup table : node) :
  tag_find soup (lit "table") [(lit "id", lit "awardlist")] = Some table ->
  exists record awards,
    extract_data rt soup = Ok record
    /\ dict_get (lit "awards") record = Some (PList awards)
    /\ awards
       = map (fun row =>
                PDict [(key "firm_name", PStr (cell_text rt row 1));
                       (key "award_amt", PStr (cell_text rt row 2))])
             (filter (fun row => (3 <=? length (cells row))%nat)
                     (tl (tag_find_all table (lit "tr") [])))
    /\ ((length (tag_find_all table (lit "tr") []) <= 1)%nat -> awards = []).
Proof.
  intros Ht.
  exists (opportunity_record rt soup),
    (page_rows rt "awardlist" "firm_name" "award_amt" soup).
  split; [apply extract_data_record|].
  split; [reflexivity|].
  unfold page_rows. rewrite Ht. unfold table_rows, table_row.
  split; [reflexivity|].
  intros L. destruct (tag_find_all table (lit "tr") []) as [|h [|r rs]];
    [reflexivity | reflexivity | simpl in L; lia].
Qed.

(** ** The decorator on hashable arguments *)

Lemma temp_pickle_hashed name func args kwargs w h_args h_kwargs :
  py_hash rt (PTuple args) = Ok h_args ->
  hash_kwargs rt kwargs = Ok h_kwargs ->
  temp_pickle rt name func args kwargs w
  = let file_path := cache_path rt name h_args h_kwargs in
    match files w file_path with
    | Some content =>
        (pickle_loads rt content, after w [EvPickleLoad file_path])
    | None =>
        match func args kwargs w with
        | (Ok result, w1) =>
            (Ok result,
             {| files := fun p =>
                           if str_eqb p file_path then None
                           else if str_eqb p file_path
                                then Some (pickle_dumps rt result)
                                else files w1 p;
                trace := (trace w1 ++ [EvPickleDump file_path])
                         ++ [EvRemove file_path] |})
        | (Raise e, w1) => (Raise e, w1)
        end
    end.
Proof.
  intros Ha Hk. unfold temp_pickle.
  unfold bind at 1. unfold lift at 1. rewrite Ha.
  unfold bind at 1. unfold lift at 1. rewrite Hk.
  fold (cache_path rt name h_args h_kwargs).
  set (file_path := cache_path rt name h_args h_kwargs).
  unfold bind at 1. unfold path_exists. cbv zeta.
  destruct (files w file_path) as [content|] eqn:F; cbn [bound].
  - unfold bind, read_file, emit, lift. rewrite F. reflexivity.
  - unfold bind at 1. destruct (func args kwargs w) as [[result|e] w1];
      [|reflexivity].
    unfold bind, write_file, emit, remove_file, ret. cbn [files trace].
    rewrite str_eqb_refl. reflexivity.
Qed.

(** X6: on a call with hashable arguments and no cache file, the
    wrapper returns what the function returns, and the cache file it
    writes is removed again before it returns: the path names no file
    afterwards, every other path is as the function left it, and the
    dump and the removal are the last two events. *)
Theorem cache_miss_leaves_no_file
        (name : str) (func : pyfun) (args : list PyVal)
        (kwargs : list (str * PyVal)) (w : world) (h_args h_kwargs : Z)
        (result : PyVal) (w1 : world) :
  py_hash rt (PTuple args) = Ok h_args ->
  hash_kwargs rt kwargs = Ok h_kwargs ->
  files w (cache_path rt name h_args h_kwargs) = None ->
  func args kwargs w = (Ok result, w1) ->
  exists w2,
    temp_pickle rt name func args kwargs w = (Ok result, w2)
    /\ files w2 (cache_path rt name h_args h_kwargs) = None
    /\ (forall p,
           p <> cache_path rt name h_args h_kwargs -> files w2 p = files w1 p)
    /\ trace w2
       = trace w1 ++ [EvPickleDump (cache_path rt name h_args h_kwargs);
                      EvRemove (cache_path rt name h_args h_kwargs)].
Proof.
  intros Ha Hk Hf Hr.
  rewrite (temp_pickle_hashed _ _ _ _ _ _ _ Ha Hk). cbv zeta.
  rewrite Hf, Hr. eexists. split; [reflexivity|]. cbn [files trace].
  split; [now rewrite str_eqb_refl|].
  split; [|now rewrite <- app_assoc].
  intros p Hp. now rewrite !(str_eqb_neq _ _ Hp).
Qed.

(** X7: on a call with hashable arguments whose cache file exists, the
    function is not called: whatever it is, the wrapper returns what
    unpickling the file gives (or raises what it raises), and the file
    stays where it is. *)
Theorem cache_hit_skips_the_function
        (name : str) (func : pyfun) (args : list PyVal)
        (kwargs : list (str * PyVal)) (w : world) (h_args h_kwargs : Z)
        (content : str) :
  py_hash rt (PTuple args) = Ok h_args ->
  hash_kwargs rt kwargs = Ok h_kwargs ->
  files w (cache_path rt name h_args h_kwargs) = Some content ->
  temp_pickle rt name func args kwargs w
  = (pickle_loads rt content,
     after w [EvPickleLoad (cache_path rt name h_args h_kwargs)]).
Proof.
  intros Ha Hk Hf.
  rewrite (temp_pickle_hashed _ _ _ _ _ _ _ Ha Hk). cbv zeta.
  now rewrite Hf.
Qed.

(** X8: on a call with hashable arguments and no cache file, an
    exception of the function passes through the wrapper, and no cache
    file is written. *)
Theorem cache_miss_passes_the_exception
        (name : str) (func : pyfun) (args : list PyVal)
        (kwargs : list (str * PyVal)) (w : world) (h_args h_kwargs : Z)
        (e : exn) (w1 : world) :
  py_hash rt (PTuple args) = Ok h_args ->
  hash_kwargs rt kwargs = Ok h_kwargs ->
  files w (cache_path rt name h_args h_kwargs) = None ->
  func args kwargs w = (Raise e, w1) ->
  temp_pickle rt name func args kwargs w = (Raise e, w1).
Proof.
  intros Ha Hk Hf Hr.
  rewrite (temp_pickle_hashed _ _ _ _ _ _ _ Ha Hk). cbv zeta.
  now rewrite Hf, Hr.
Qed.

(** ** The run: where it stops *)

Lemma mfor_app {A S} (xs ys : list A) (body : S -> A -> M S) s w :
  mfor (xs ++ ys) body s w
  = match mfor xs body s w with
    | (Ok s', w') => mfor ys body s' w'
    | (Raise e, w') => (Raise e, w')
    end.
Proof.
  revert s w. induction xs as [|x xs IH]; intros s w; [reflexivity|].
  cbn [app mfor]. unfold bind.
  destruct (body s x w) as [[s'|e] w']; [apply IH | reflexivity].
Qed.

Lemma pages_Forall2 pages :
  Forall (fun page => http_get rt (SITE ++ fst page) = Ok (snd page)) pages ->
  Forall2 (fun url page =>
             url = PStr (fst page)
             /\ http_get rt (SITE ++ fst page) = Ok (snd page))
          (map (fun page => PStr (fst page)) pages) pages.
Proof. induction 1; simpl; constructor; auto. Qed.

Lemma main_with_loaded aggregate yaml output w content links :
  files w yaml = Some content ->
  yaml_safe_load rt content = Ok (PDict links) ->
  forall e w',
    mfor (map snd links) (fetch_record rt) [] w = (Raise e, w') ->
    main_with rt aggregate yaml output w = (Raise e, w').
Proof.
  intros Hf Hy e w' Hl. unfold main_with.
  unfold bind at 1. rewrite load_yaml_to_dict_cases, Hf, Hy.
  unfold bind at 1. unfold lift at 1. cbn [py_values].
  unfold bind at 1. now rewrite Hl.
Qed.

(** X9: when the page of a link cannot be fetched, the run ends with
    the exception of that fetch, whatever the aggregation step is: the
    links before it were fetched, the links after it are not, and
    nothing is aggregated or written. *)
Theorem failed_fetch_aborts_the_run
        (aggregate : pyfun) (yaml : str) (output : option str) (w : world)
        (content : str) (links : list (PyVal * PyVal))
        (pages : list (str * node)) (url : str) (rest : list PyVal)
        (e : exn) :
  files w yaml = Some content ->
  yaml_safe_load rt content = Ok (PDict links) ->
  map snd links = map (fun page => PStr (fst page)) pages ++ PStr url :: rest ->
  Forall (fun page => http_get rt (SITE ++ fst page) = Ok (snd page)) pages ->
  http_get rt (SITE ++ url) = Raise e ->
  main_with rt aggregate yaml output w
  = (Raise e,
     after w (map (fun page => EvGet (SITE ++ fst page)) pages
              ++ [EvGet (SITE ++ url)])).
Proof.
  intros Hf Hy Hl Hp He.
  apply (main_with_loaded _ _ _ _ _ _ Hf Hy).
  rewrite Hl, mfor_app, (fetch_loop_pages _ _ [] w (pages_Forall2 _ Hp)).
  cbn [mfor]. unfold bind. rewrite fetch_record_cases, He.
  now rewrite after_after.
Qed.

(** X10: when a link of the configuration is not a string, the run ends
    with TypeError at the building of its address, whatever the
    aggregation step is: the links before it were fetched, nothing is
    fetched for it or after it, and nothing is aggregated or written. *)
Theorem bad_link_aborts_the_run
        (aggregate : pyfun) (yaml : str) (output : option str) (w : world)
        (content : str) (links : list (PyVal * PyVal))
        (pages : list (str * node)) (bad : PyVal) (rest : list PyVal) :
  files w yaml = Some content ->
  yaml_safe_load rt content = Ok (PDict links) ->
  map snd links = map (fun page => PStr (fst page)) pages ++ bad :: rest ->
  Forall (fun page => http_get rt (SITE ++ fst page) = Ok (snd page)) pages ->
  (forall s, bad <> PStr s) ->
  main_with rt aggregate yaml output w
  = (Raise TypeError,
     after w (map (fun page => EvGet (SITE ++ fst page)) pages)).
Proof.
  intros Hf Hy Hl Hp Hb.
  apply (main_with_loaded _ _ _ _ _ _ Hf Hy).
  rewrite Hl, mfor_app, (fetch_loop_pages _ _ [] w (pages_Forall2 _ Hp)).
  cbn [mfor]. unfold bind. rewrite fetch_record_cases.
  destruct bad; try reflexivity. now destruct (Hb s).
Qed.

(** X11: when the configuration parses to a value that is no mapping
    (an empty file parses to None), the run ends with AttributeError at
    [urls.values()]: nothing is printed, fetched or written. *)
Theorem config_without_mapping_aborts_the_run
        (aggregate : pyfun) (yaml : str) (output : option str) (w : world)
        (content : str) (urls : PyVal) :
  files w yaml = Some content ->
  yaml_safe_load rt content = Ok urls ->
  is_dict urls = false ->
  main_with rt aggregate yaml output w = (Raise AttributeError, w).
Proof.
  intros Hf Hy Hd. unfold main_with.
  unfold bind at 1. rewrite load_yaml_to_dict_cases, Hf, Hy.
  unfold bind at 1. unfold lift at 1.
  destruct urls; try reflexivity. discriminate.
Qed.


(** ** The aggregation step under the decorator *)

Lemma dict_get_stringified k items :
  dict_get k (stringified rt (PDict items))
  = match dict_get k (PDict items) with
    | Some v => Some (PStr (py_str rt v))
    | None => None
    end.
Proof.
  cbn [stringified dict_get].
  induction items as [|[k0 v0] items IH]; [reflexivity|].
  cbn [map find fst snd]. destruct (is_key k k0); [reflexivity | exact IH].
Qed.

(** X12: on a list of dicts the body of the aggregation step returns
    one row for every record, in their order.  Without the flag (it is
    False when left out) the rows are the records; with it, every row
    has the keys of its record, in their order, and under each key the
    string of the value the record has there, so a value that is a
    string already, such as the title, stays as it is. *)
Theorem body_keeps_the_records
        (records : list PyVal) (iscsv : bool) (w : world) :
  forallb is_dict records = true ->
  exists rows,
    extract_multiple_to_df_body rt [PList records; PBool iscsv] [] w
    = (Ok (PList rows), w)
    /\ length rows = length records
    /\ (iscsv = false -> rows = records)
    /\ extract_multiple_to_df_body rt [PList records] [] w
       = (Ok (PList records), w)
    /\ (iscsv = true ->
        forall i record,
          nth_error records i = Some record ->
          exists row,
            nth_error rows i = Some row
            /\ (forall items, py_items record = Ok items ->
                exists values,
                  py_items row = Ok values /\ map fst values = map fst items)
            /\ (forall k,
                   dict_get k row
                   = match dict_get k record with
                     | Some v => Some (PStr (py_str rt v))
                     | None => None
                     end)
            /\ (forall k s,
                   dict_get k record = Some (PStr s) ->
                   dict_get k row = Some (PStr s))).
Proof.
  intros H.
  exists (if iscsv then map (stringified rt) records else records).
  split; [now apply body_rows|].
  split; [destruct iscsv; [apply length_map | reflexivity]|].
  split; [now intros ->|].
  split; [exact (body_rows records false w H)|].
  intros -> i record Hi. exists (stringified rt record).
  split; [now apply map_nth_error|].
  assert (D : is_dict record = true).
  { rewrite forallb_forall in H. apply H. eapply nth_error_In, Hi. }
  destruct record; try discriminate.
  split; [|split].
  - intros ? [= <-]. eexists. split; [reflexivity|].
    rewrite map_map. reflexivity.
  - intros k. apply dict_get_stringified.
  - intros k s Hk. rewrite dict_get_stringified, Hk. reflexivity.
Qed.

(** X13: a record that is no dict makes the body of the aggregation
    step raise AttributeError at [data.items()]; the rows made before it
    are lost. *)
Theorem body_rejects_a_non_record
        (records : list PyVal) (iscsv : bool) (w : world) :
  existsb (fun record => negb (is_dict record)) records = true ->
  extract_multiple_to_df_body rt [PList records; PBool iscsv] [] w
  = (Raise AttributeError, w).
Proof.
  intros H. unfold extract_multiple_to_df_body, lift.
  cbn [bind_parameters forallb negb rbind fst snd py_iter truthy].
  f_equal.
  assert (G : forall acc,
             rfor records
               (fun processed_data data =>
                  rbind (py_items data)
                    (fun items =>
                       Ok (processed_data
                             ++ [PDict
                                   (if iscsv
                                    then map (fun kv => (fst kv, PStr (py_str rt (snd kv)))) items
                                    else map (fun kv => (fst kv, snd kv)) items)])))
               acc
             = Raise AttributeError).
  { induction records as [|r records IH]; intros acc; [discriminate|].
    simpl in H. cbn [rfor].
    destruct r; try reflexivity.
    cbn [py_items rbind]. apply IH. exact H. }
  now rewrite (G []).
Qed.

(** ** scrap_urls.py: the harvest over the listing pages *)

Lemma set_key_str k v items : set_key (PStr k) v items = dict_set k v items.
Proof.
  induction items as [|[k0 v0] items IH]; [reflexivity|].
  cbn [set_key dict_set].
  assert (E : key_eq k0 (PStr k) = is_key k k0) by (destruct k0; reflexivity).
  rewrite E, IH. reflexivity.
Qed.

Lemma dict_get_absent k items :
  ~ In (PStr k) (map fst items) -> dict_get k (PDict items) = None.
Proof.
  induction items as [|[k0 v0] items IH]; intros H; [reflexivity|].
  cbn [dict_get find fst]. destruct (is_key k k0) eqn:E.
  - apply is_key_eq in E. subst k0. exfalso. apply H. now left.
  - apply IH. intros Hin. apply H. now right.
Qed.

(** Updating with a dict of string keys: its values win, the other keys
    keep theirs. *)
Lemma py_update_get new : forall items,
  Forall (fun kv => exists s, fst kv = PStr s) new ->
  NoDup (map fst new) ->
  exists items',
    py_update rt items (PDict new) = Ok items'
    /\ forall k,
        dict_get k (PDict items')
        = match dict_get k (PDict new) with
          | Some url => Some url
          | None => dict_get k (PDict items)
          end.
Proof.
  unfold py_update.
  induction new as [|[k0 v0] new IH]; intros items Hs Hn.
  - exists items. split; [reflexivity|]. intros k. reflexivity.
  - inversion Hs as [|? ? [s Hk] Hs']; subst. cbn [fst] in Hk. subst k0.
    inversion Hn as [|? ? Hnot Hn']; subst.
    destruct (IH (dict_set s v0 items) Hs' Hn') as (items' & E & G).
    exists items'. split.
    + cbn [rfor fst snd]. unfold py_setitem at 1. cbn [py_hash rbind].
      rewrite set_key_str. exact E.
    + intros k. rewrite G, dict_get_set.
      cbn [dict_get find fst snd is_key].
      destruct (str_eqb s k) eqn:Ek.
      * apply str_eqb_eq in Ek. subst k.
        change (match find (fun kv => is_key s (fst kv)) new with
                | Some kv => Some (snd kv)
                | None => None
                end) with (dict_get s (PDict new)).
        now rewrite (dict_get_absent _ _ Hnot).
      * reflexivity.
Qed.

Lemma last_url_app k a b :
  last_url k (a ++ b)
  = match last_url k b with
    | Some url => Some url
    | None => last_url k a
    end.
Proof.
  unfold last_url. rewrite rev_app_distr, find_app.
  now destruct (find (fun entry => str_eqb (fst entry) k) (rev b)).
Qed.

Lemma harvest_page_cases url_dict url w :
  harvest_page rt url_dict url w
  = match http_get rt url with
    | Ok soup =>
        (py_update rt url_dict (PDict (set_all (title_entries rt soup) [])),
         after w [EvGet url])
    | Raise e => (Raise e, after w [EvGet url])
    end.
Proof.
  unfold harvest_page, get_full_html, bind, lift, emit.
  fold (after w [EvGet url]).
  destruct (http_get rt url) as [soup|e]; [|reflexivity].
  now rewrite extract_title_url_entries.
Qed.

Lemma harvest_loop urls soups :
  Forall2 (fun url soup => http_get rt url = Ok soup) urls soups ->
  forall items w,
    exists items',
      mfor urls (harvest_page rt) items w
      = (Ok items', after w (map EvGet urls))
      /\ forall k,
          dict_get k (PDict items')
          = match last_url k (flat_map (title_entries rt) soups) with
            | Some url => Some url
            | None => dict_get k (PDict items)
            end.
Proof.
  induction 1 as [|url soup urls soups Hg _ IH]; intros items w.
  - exists items. cbn. rewrite after_nil. now split.
  - assert (Hs : Forall (fun kv : PyVal * PyVal => exists s, fst kv = PStr s)
                   (set_all (title_entries rt soup) [])).
    { apply set_all_Forall; [|constructor].
      apply Forall_forall. intros e _. now exists (fst e). }
    destruct (py_update_get _ items Hs
                (set_all_NoDup (title_entries rt soup) [] (NoDup_nil _)))
      as (items1 & E1 & G1).
    destruct (IH items1 (after w [EvGet url])) as (items' & E & G).
    exists items'. split.
    + cbn [mfor map]. unfold bind. rewrite harvest_page_cases, Hg, E1, E.
      now rewrite after_after.
    + intros k. cbn [flat_map]. rewrite G, G1, last_url_app, dict_get_set_all.
      destruct (last_url k (flat_map (title_entries rt) soups));
        [reflexivity|].
      destruct (last_url k (title_entries rt soup)); reflexivity.
Qed.

(** X14: when every listing page loads, the harvest fetches the pages
    in their order, page 0 first, and returns one mapping for all of
    them: a title maps to the address of its last title block on the
    last page that has it, and to nothing when no page has it. *)
Theorem harvest_merges_the_pages
        (target : str) (pages : Z) (soups : list node) (w : world) :
  Forall2 (fun url soup => http_get rt url = Ok soup)
          (listing_urls target pages) soups ->
  exists mapping,
    harvest rt target pages w
    = (Ok mapping, after w (map EvGet (listing_urls target pages)))
    /\ forall title,
        dict_get title mapping
        = last_url title (flat_map (title_entries rt) soups).
Proof.
  intros H. destruct (harvest_loop _ _ H [] w) as (items & E & G).
  exists (PDict items). split.
  - unfold harvest, bind, ret. now rewrite E.
  - intros title. rewrite G.
    now destruct (last_url title (flat_map (title_entries rt) soups)).
Qed.

(** X15: when a listing page cannot be fetched, the harvest ends with
    the exception of that fetch and returns no mapping: the pages before
    it were fetched, the pages after it are not. *)
Theorem failed_listing_aborts_the_harvest
        (target : str) (pages : Z) (before : list str) (soups : list node)
        (url : str) (rest : list str) (e : exn) (w : world) :
  listing_urls target pages = before ++ url :: rest ->
  Forall2 (fun url soup => http_get rt url = Ok soup) before soups ->
  http_get rt url = Raise e ->
  harvest rt target pages w
  = (Raise e, after w (map EvGet before ++ [EvGet url])).
Proof.
  intros Hl Hb He. unfold harvest. unfold bind at 1.
  rewrite Hl, mfor_app.
  destruct (harvest_loop _ _ Hb [] w) as (items & -> & _).
  cbn [mfor]. unfold bind. rewrite harvest_page_cases, He.
  now rewrite after_after.
Qed.

(** ** Hashing *)

Lemma PyVal_tuple_ind (P : PyVal -> Prop) :
  P PNone ->
  (forall b, P (PBool b)) ->
  (forall z, P (PInt z)) ->
  (forall s, P (PStr s)) ->
  (forall items, P (PList items)) ->
  (forall items, Forall P items -> P (PTuple items)) ->
  (forall items, P (PDict items)) ->
  forall v, P v.
Proof.
  intros HN HB HI HS HL HT HD.
  fix IH 1. intros [ |b|z|s|items|items|items];
    [exact HN | apply HB | apply HI | apply HS | apply HL | | apply HD].
  apply HT. induction items as [|x items IHl]; constructor;
    [apply IH | exact IHl].
Qed.

(** A value is hashed unless it holds a list or a dict. *)
Lemma py_hash_cases v :
  if holds_unhashable v then py_hash rt v = Raise TypeError
  else exists h, py_hash rt v = Ok h.
Proof.
  induction v as [ |b|z|s|items|items IH|items] using PyVal_tuple_ind;
    try (cbn; eauto; fail).
  cbn [holds_unhashable py_hash].
  set (hashes := fix hashes (l : list PyVal) : result (list Z) :=
                   match l with
                   | [] => Ok []
                   | x :: l' =>
                       rbind (py_hash rt x)
                         (fun h => rbind (hashes l') (fun hs => Ok (h :: hs)))
                   end).
  assert (G : if existsb holds_unhashable items
              then hashes items = Raise TypeError
              else exists hs, hashes items = Ok hs).
  { induction IH as [|x items Hx _ IHl]; [cbn; eauto|].
    cbn [existsb hashes]. fold hashes.
    destruct (holds_unhashable x); cbn [orb].
    - now rewrite Hx.
    - destruct Hx as [h ->]. cbn [rbind].
      destruct (existsb holds_unhashable items).
      + now rewrite IHl.
      + destruct IHl as [hs ->]. cbn. eauto. }
  destruct (existsb holds_unhashable items).
  - now rewrite G.
  - destruct G as [hs ->]. cbn. eauto.
Qed.

(** X16: a call of a decorated function with a positional argument
    that is a list or a dict, or a tuple that holds one at any depth,
    raises TypeError and leaves the world as it was, whatever the
    function is: records, which are dicts, reach the body of the
    aggregation step in no container. *)
Theorem unhashable_argument_raises
        (name : str) (func : pyfun) (args : list PyVal)
        (kwargs : list (str * PyVal)) (w : world) :
  existsb holds_unhashable args = true ->
  temp_pickle rt name func args kwargs w = (Raise TypeError, w).
Proof.
  intros H. unfold temp_pickle. unfold bind at 1. unfold lift at 1.
  pose proof (py_hash_cases (PTuple args)) as G.
  cbn [holds_unhashable] in G. rewrite H in G. now rewrite G.
Qed.

(** ** Normalized titles *)

(** X17: the normalized titles are the titles with no apostrophe, no
    space and no ["_–_"]: normalizing gives such a title, and a title is
    left as it is exactly when it is one. *)
Theorem normalized_titles (t : str) :
  is_normalized (normalize t) = true
  /\ (normalize t = t <-> is_normalized t = true).
Proof.
  assert (N : is_normalized (normalize t) = true).
  { unfold is_normalized. apply andb_true_intro. split.
    - apply forallb_forall. intros c Hc.
      pose proof (normalize_clean t) as F. rewrite Forall_forall in F.
      destruct (F c Hc) as [Ha Hs].
      apply N.eqb_neq in Ha, Hs. now rewrite Ha, Hs.
    - rewrite normalize_steps. unfold replace, DASHED.
      now rewrite dashed_gone. }
  split; [exact N|]. split.
  - intros E. now rewrite E in N.
  - unfold is_normalized. intros H. apply andb_prop in H as [F C].
    rewrite forallb_forall in F. apply negb_true_iff in C.
    rewrite normalize_steps. unfold strip_apostrophes, spaces_to_underscores.
    rewrite filter_id, map_id_on.
    + unfold replace, DASHED. now apply replace_from_absent.
    + apply Forall_forall. intros c Hc. specialize (F c Hc).
      apply andb_prop in F as [_ Fs]. apply negb_true_iff in Fs.
      simpl. now rewrite Fs.
    + apply Forall_forall. intros c Hc. specialize (F c Hc).
      apply andb_prop in F as [Fa _]. exact Fa.
Qed.
End Properties.

(** ** The examples *)

(** C6, on the sample page: the table of bids gives the two rows of
    three cells and more, in their order. *)
Lemma bid_results_of_the_sample :
  tag_find sample_page (lit "table") [(lit "id", lit "bidresultlist")]
  = Some sample_table
  /\ exists record bid_results,
      extract_data sample_runtime sample_page = Ok record
      /\ dict_get (lit "bid_results") record = Some (PList bid_results)
      /\ bid_results
         = [PDict [(key "company", PStr (lit "Acme Roofing"));
                   (key "bid_amount", PStr (lit "$1,200,000"))];
            PDict [(key "company", PStr (lit "Best Build"));
                   (key "bid_amount", PStr (lit "$1,300,000"))]].
Proof.
  split; [reflexivity|].
  destruct (bid_results_in_row_order sample_runtime sample_page sample_table
              eq_refl) as (record & bid_results & E & G & R & _).
  exists record, bid_results. repeat split; [exact E | exact G |].
  rewrite R. reflexivity.
Defined.

(** C10, on a path that names no file. *)
Lemma main_without_the_sample_configuration :
  files sample_world (lit "urls/other.yaml") = None
  /\ exists e,
      main sample_runtime (lit "urls/other.yaml") None sample_world
      = (Raise AttributeError,
         after sample_world [EvPrintErr (lit "Error reading YAML file: ") e]).
Proof.
  split; [reflexivity|].
  apply (main_aborts_without_configuration sample_runtime).
  left. reflexivity.
Defined.



(** C3 as the specification states it fails: the pattern of the code
    has word boundaries, so a comma at the end of a number is left out,
    and digits glued to a letter are no number. *)
Lemma numbers_end_at_word_boundaries :
  estimated_loop sample_runtime
    (split_on 46 (lit "The estimated cost is 1,250,000, more or less"))
  = Ok [PTuple [PStr (lit "The estimated cost is 1,250,000, more or less");
                PList [PStr (lit "1,250,000")]]]
  /\ spec_estimates sample_runtime
       (lit "The estimated cost is 1,250,000, more or less")
     = [PTuple [PStr (lit "The estimated cost is 1,250,000, more or less");
                PList [PStr (lit "1,250,000,")]]]
  /\ findall sample_runtime (NUMBER_RE sample_runtime) (lit "Lot12 estimated")
     = []
  /\ findall sample_runtime (SPEC_NUMBER_RE sample_runtime)
       (lit "Lot12 estimated")
     = [lit "12"].
Proof. repeat split; vm_compute; reflexivity. Qed.

(** C7 on one record: the decorated step raises TypeError for CSV and
    for JSON, before its body runs; the body alone returns the record
    with every value as its string for CSV, and the record itself for
    JSON; the run with the path out.json ends in TypeError with no
    writer called. *)
Theorem aggregation_step_fails_on_a_record :
  let record := opportunity_record sample_runtime sample_page in
  extract_multiple_to_df sample_runtime [PList [record]; PBool true] []
    sample_world
  = (Raise TypeError, sample_world)
  /\ extract_multiple_to_df sample_runtime [PList [record]; PBool false] []
       sample_world
     = (Raise TypeError, sample_world)
  /\ extract_multiple_to_df_body sample_runtime [PList [record]; PBool true] []
       sample_world
     = (Ok (PList [stringified sample_runtime record]), sample_world)
  /\ extract_multiple_to_df_body sample_runtime [PList [record]; PBool false] []
       sample_world
     = (Ok (PList [record]), sample_world)
  /\ fst (main sample_runtime (lit "urls/bid-results-and-awards.yaml")
            (Some (lit "out.json")) sample_world)
     = Raise TypeError
  /\ forallb is_write
       (trace (snd (main sample_runtime (lit "urls/bid-results-and-awards.yaml")
                      (Some (lit "out.json")) sample_world)))
     = false.
Proof.
  intros record.
  split; [apply temp_pickle_list|].
  split; [apply temp_pickle_list|].
  split; [apply (body_rows sample_runtime [record] true); reflexivity|].
  split; [apply (body_rows sample_runtime [record] false); reflexivity|].
  split; vm_compute; reflexivity.
Qed.

(** ** More examples *)

(** X1, on a page whose three title blocks give no entry. *)
Lemma bare_listing_has_no_links :
  extract_title_url sample_runtime bare_listing = Ok (PDict []).
Proof.
  apply (listing_without_links sample_runtime bare_listing).
  intros title_div H. cbn in H.
  destruct H as [<-|[<-|[<-|[]]]]; cbn; auto.
Defined.

(** X5, on the sample table of awards. *)
Lemma awards_of_the_sample :
  exists record awards,
    extract_data sample_runtime awards_page = Ok record
    /\ dict_get (lit "awards") record = Some (PList awards)
    /\ awards
       = [PDict [(key "firm_name", PStr (lit "Acme Roofing"));
                 (key "award_amt", PStr (lit "$1,150,000"))]].
Proof.
  destruct (awards_in_row_order sample_runtime awards_page awards_table
              eq_refl) as (record & awards & E & G & R & _).
  exists record, awards. repeat split; [exact E | exact G |].
  rewrite R. reflexivity.
Defined.

(** X6, on the decorated aggregation step called with the empty tuple,
    which is hashable. *)
Lemma empty_tuple_is_aggregated :
  exists w2,
    extract_multiple_to_df sample_runtime [PTuple []; PBool true] []
      sample_world
    = (Ok (PList []), w2)
    /\ files w2 (lit "/tmp/extract_multiple_to_df_0_0.pkl") = None
    /\ (forall p,
           p <> lit "/tmp/extract_multiple_to_df_0_0.pkl" ->
           files w2 p = files sample_world p)
    /\ trace w2
       = [EvPickleDump (lit "/tmp/extract_multiple_to_df_0_0.pkl");
          EvRemove (lit "/tmp/extract_multiple_to_df_0_0.pkl")].
Proof.
  exact (cache_miss_leaves_no_file sample_runtime
           (lit "extract_multiple_to_df")
           (extract_multiple_to_df_body sample_runtime)
           [PTuple []; PBool true] [] sample_world 0%Z 0%Z (PList [])
           sample_world eq_refl eq_refl eq_refl eq_refl).
Defined.

(** X7, on the same call with a cache file left behind: the file is
    read, and here it does not unpickle. *)
Lemma stale_cache_is_read :
  extract_multiple_to_df sample_runtime [PTuple []; PBool true] [] stale_world
  = (Raise UnpicklingError,
     after stale_world
       [EvPickleLoad (lit "/tmp/extract_multiple_to_df_0_0.pkl")]).
Proof.
  exact (cache_hit_skips_the_function sample_runtime
           (lit "extract_multiple_to_df")
           (extract_multiple_to_df_body sample_runtime)
           [PTuple []; PBool true] [] stale_world 0%Z 0%Z (lit "stale")
           eq_refl eq_refl eq_refl).
Defined.

(** X8, on the decorated aggregation step called with a number. *)
Lemma number_is_not_aggregated :
  extract_multiple_to_df sample_runtime [PInt 3; PBool true] [] sample_world
  = (Raise TypeError, sample_world).
Proof.
  exact (cache_miss_passes_the_exception sample_runtime
           (lit "extract_multiple_to_df")
           (extract_multiple_to_df_body sample_runtime)
           [PInt 3; PBool true] [] sample_world 0%Z 0%Z TypeError
           sample_world eq_refl eq_refl eq_refl eq_refl).
Defined.

(** X9, on a configuration whose second link is gone. *)
Lemma gone_link_aborts :
  main_with
    (runtime_with_config
       (PDict [(key "Roof_Repair", PStr (lit "opportunities/roof-repair"));
               (key "Gone", PStr (lit "opportunities/gone"));
               (key "Later", PStr (lit "opportunities/later"))]))
    (extract_multiple_to_df_body sample_runtime)
    (lit "urls/bid-results-and-awards.yaml") None sample_world
  = (Raise HTTPError,
     after sample_world
       [EvGet (SITE ++ lit "opportunities/roof-repair");
        EvGet (SITE ++ lit "opportunities/gone")]).
Proof.
  refine (failed_fetch_aborts_the_run _ _ _ None sample_world sample_yaml _
            [(lit "opportunities/roof-repair", sample_page)]
            (lit "opportunities/gone")
            [PStr (lit "opportunities/later")] HTTPError _ _ _ _ _);
    try reflexivity.
  repeat constructor.
Defined.

(** X10, on a configuration whose second link is a number. *)
Lemma number_link_aborts :
  main_with
    (runtime_with_config
       (PDict [(key "Roof_Repair", PStr (lit "opportunities/roof-repair"));
               (key "Bad", PInt 5)]))
    (extract_multiple_to_df_body sample_runtime)
    (lit "urls/bid-results-and-awards.yaml") None sample_world
  = (Raise TypeError,
     after sample_world [EvGet (SITE ++ lit "opportunities/roof-repair")]).
Proof.
  refine (bad_link_aborts_the_run _ _ _ None sample_world sample_yaml _
            [(lit "opportunities/roof-repair", sample_page)]
            (PInt 5) [] _ _ _ _ _);
    try reflexivity.
  - repeat constructor.
  - discriminate.
Defined.

(** X11, on a configuration file that parses to None. *)
Lemma empty_config_aborts :
  main (runtime_with_config PNone) (lit "urls/bid-results-and-awards.yaml")
    None sample_world
  = (Raise AttributeError, sample_world).
Proof.
  exact (config_without_mapping_aborts_the_run (runtime_with_config PNone)
           (extract_multiple_to_df (runtime_with_config PNone))
           (lit "urls/bid-results-and-awards.yaml") None sample_world
           sample_yaml PNone eq_refl eq_refl eq_refl).
Defined.

(** X12, on the record of the sample page. *)
Lemma sample_record_is_kept :
  exists rows,
    extract_multiple_to_df_body sample_runtime
      [PList [opportunity_record sample_runtime sample_page]; PBool true] []
      sample_world
    = (Ok (PList rows), sample_world)
    /\ length rows = 1%nat.
Proof.
  destruct (body_keeps_the_records sample_runtime
              [opportunity_record sample_runtime sample_page] true
              sample_world eq_refl) as (rows & E & L & _).
  exists rows. split; [exact E | exact L].
Defined.

(** X13, on a list that holds a string among its records. *)
Lemma string_among_records_is_rejected :
  extract_multiple_to_df_body sample_runtime
    [PList [opportunity_record sample_runtime sample_page;
            PStr (lit "not a record")];
     PBool false]
    [] sample_world
  = (Raise AttributeError, sample_world).
Proof.
  exact (body_rejects_a_non_record sample_runtime
           [opportunity_record sample_runtime sample_page;
            PStr (lit "not a record")]
           false sample_world eq_refl).
Defined.

(** X14, on the two listing pages: Roof_Repair maps to its address on
    the second page. *)
Lemma two_listing_pages_are_merged :
  exists mapping,
    harvest listing_runtime (lit "bid-results-and-awards") 2 sample_world
    = (Ok mapping,
       after sample_world
         [EvGet (URL ++ lit "bid-results-and-awards?page=0");
          EvGet (URL ++ lit "bid-results-and-awards?page=1")])
    /\ dict_get (lit "Roof_Repair") mapping
       = Some (PStr (lit "/opportunities/roof-repair-2"))
    /\ dict_get (lit "Boilers_Upgrade") mapping
       = Some (PStr (lit "/opportunities/boiler"))
    /\ dict_get (lit "Boiler's Upgrade") mapping = None.
Proof.
  destruct (harvest_merges_the_pages listing_runtime
              (lit "bid-results-and-awards") 2 [listing_0; listing_1]
              sample_world)
    as (mapping & E & G).
  - repeat constructor.
  - exists mapping. split; [exact E|]. rewrite !G. repeat split.
Defined.

(** X15, on three listing pages of which the site has two. *)
Lemma third_listing_page_aborts :
  harvest listing_runtime (lit "bid-results-and-awards") 3 sample_world
  = (Raise HTTPError,
     after sample_world
       [EvGet (URL ++ lit "bid-results-and-awards?page=0");
        EvGet (URL ++ lit "bid-results-and-awards?page=1");
        EvGet (URL ++ lit "bid-results-and-awards?page=2")]).
Proof.
  refine (failed_listing_aborts_the_harvest listing_runtime
            (lit "bid-results-and-awards") 3
            [URL ++ lit "bid-results-and-awards?page=0";
             URL ++ lit "bid-results-and-awards?page=1"]
            [listing_0; listing_1]
            (URL ++ lit "bid-results-and-awards?page=2") []
            HTTPError sample_world _ _ _);
    try reflexivity.
  repeat constructor.
Defined.

(** X16, on a tuple of one record. *)
Lemma tuple_of_records_raises :
  extract_multiple_to_df sample_runtime
    [PTuple [opportunity_record sample_runtime sample_page]; PBool false] []
    sample_world
  = (Raise TypeError, sample_world).
Proof.
  exact (unhashable_argument_raises sample_runtime
           (lit "extract_multiple_to_df")
           (extract_multiple_to_df_body sample_runtime)
           [PTuple [opportunity_record sample_runtime sample_page];
            PBool false]
           [] sample_world eq_refl).
Defined.
